(** * Melon protocol: fund accounting (Vault) and ValueInterpreter

    A shallow embedding of two contracts of the repository:

    - [Vault] (Solidity 0.4.11): share ledger, share price, rewards,
      subscribe / redeem / slice operations and reward conversion;
    - [ValueInterpreter] (Solidity 0.6.8): valuation of an amount of an asset
      in a quote asset through a primitive and a derivative price feed.

    [uint256] values are integers of [Z]; addresses are integers too, with
    [address(0) = 0].  A transaction either returns a value, reverts, or runs
    out of gas. *)

From Stdlib Require Import ZArith List Bool Lia.
From stdpp Require Import base option list fin_maps gmap.

Local Open Scope Z_scope.

(** ** Execution results and [uint256] arithmetic *)

Module EVM.

(** An address is a 160-bit integer. *)
Abbreviation address := Z (only parsing).

Definition MAX_UINT256 : Z := 2 ^ 256 - 1.

(** Unchecked EVM arithmetic wraps modulo [2 ^ 256]. *)
Definition wrap (x : Z) : Z := x mod 2 ^ 256.

(** [10 ** k], as the EVM computes it. *)
Definition pow10 (k : Z) : Z := wrap (10 ^ k).

(** [a - b] outside SafeMath. *)
Definition raw_sub (a b : Z) : Z := wrap (a - b).

Inductive result (A : Type) : Type :=
| Ok (a : A)
| Revert
| OutOfGas.

Arguments Ok {A} a.
Arguments Revert {A}.
Arguments OutOfGas {A}.

Global Instance result_ret : MRet result := fun _ a => Ok a.

Global Instance result_bind : MBind result := fun _ _ k m =>
  match m with
  | Ok a => k a
  | Revert => Revert
  | OutOfGas => OutOfGas
  end.

(** [require(c)] and [assert(c)] abort the transaction when [c] is false. *)
Definition require (c : bool) : result unit :=
  if c then Ok tt else Revert.

Definition assert (c : bool) : result unit := require c.

End EVM.

Export EVM.

(** The SafeMath library ([using SafeMath for uint256]) is imported by both
    contracts, but its source is not part of the tree. *)
Module SafeMath.

(** Modelled from the spec: SafeMath.add is missing from the tree.  Section 7
    of the specification makes an overflow an arithmetic violation that
    aborts the whole operation: [add] aborts when the exact sum does not fit a
    [uint256]. *)
Definition add (a b : Z) : result Z :=
  if a + b <=? MAX_UINT256 then Ok (a + b) else Revert.

(** Modelled from the spec: SafeMath.sub is missing from the tree.  Section 7
    of the specification makes a fee exceeding GAV, like every unsigned
    underflow, an arithmetic violation that aborts: [sub] aborts when the
    subtrahend is the larger. *)
Definition sub (a b : Z) : result Z :=
  if b <=? a then Ok (a - b) else Revert.

(** Modelled from the spec: SafeMath.mul is missing from the tree.  As for
    [add], an overflow aborts. *)
Definition mul (a b : Z) : result Z :=
  if a * b <=? MAX_UINT256 then Ok (a * b) else Revert.

(** Modelled from the spec: SafeMath.div is missing from the tree.  Section 7
    of the specification makes a division by zero abort, and Section 4.4 has
    every division truncate toward zero. *)
Definition div (a b : Z) : result Z :=
  if b =? 0 then Revert else Ok (a / b).

End SafeMath.

(** DBC.sol, the design-by-contract base of the Vault, is imported but not
    part of the tree. *)
Module DBC.

(** Modelled from the spec: the modifier DBC.pre_cond is missing from the
    tree.  Section 7 of the specification has a violated precondition abort
    the operation entirely, before any state mutation or external call:
    [pre_cond(c)] requires [c] and then runs the body. *)
Definition pre_cond (condition : bool) : result unit := require condition.

End DBC.

(** ** The Vault contract *)

Module Vault.

Import DBC.

(** *** Types *)

Record Calculations : Type := mkCalculations {
  gav : Z;
  managementReward : Z;
  performanceReward : Z;
  unclaimedRewards : Z;
  nav : Z;
  sharePrice : Z;
  totalSupplyAtPayout : Z;   (* field [totalSupply] of the struct *)
  timestamp : Z
}.

(** Contract storage.  [balances] and [totalSupply] come from the ERC20 base
    contract (Shares) and [owner] from Owned; a holder absent from the
    mapping has balance 0. *)
Record Storage : Type := mkStorage {
  balances : gmap address Z;
  totalSupply : Z;
  owner : address;
  decimals : Z;
  baseUnitsPerShare : Z;
  referenceAsset : address;
  subscriptionFee : Z;       (* prospectus.subscriptionFee *)
  atLastPayout : Calculations
}.

Definition SUBSCRIBE_THRESHOLD : Z := 1000.
Definition SUBSCRIBE_FEE_DIVISOR : Z := 100000.

(** *** Collaborators

    The modules a vault is wired to are other contracts, known here by their
    interfaces only. *)

Record PriceFeedProtocol : Type := {
  getQuoteAsset : address;
  getPrice : address -> Z
}.

Record RewardsProtocol : Type := {
  calculateManagementReward : Z -> Z -> result Z;
  calculatePerformanceReward : Z -> Z -> result Z
}.

Record ParticipationProtocol : Type := {
  isSubscriberPermitted : address -> Z -> bool;
  isSubscribePermitted : address -> Z -> bool;
  isRedeemPermitted : address -> Z -> bool
}.

(** Asset tokens, over an arbitrary state [Ledger] of the token contracts.
    [transfer l asset from to amount] is the call [asset.transfer(to, amount)]
    made by [from]; [transferFrom l asset spender from to amount] is
    [asset.transferFrom(from, to, amount)] made by [spender].  Either may
    abort, or return a success flag with the new token state. *)
Record AssetProtocol (Ledger : Type) : Type := {
  balanceOf : Ledger -> address -> address -> Z;
  getDecimals : address -> Z;
  transfer : Ledger -> address -> address -> address -> Z -> result (bool * Ledger);
  transferFrom :
    Ledger -> address -> address -> address -> address -> Z -> result (bool * Ledger)
}.

Arguments balanceOf {Ledger} _ _ _ _.
Arguments getDecimals {Ledger} _ _.
Arguments transfer {Ledger} _ _ _ _ _ _.
Arguments transferFrom {Ledger} _ _ _ _ _ _ _.

(** The wiring of one vault and the context of one call.  [universe] lists
    the assigned assets with their price feeds: entry [i] is
    [(assetAt(i), priceFeedAt(i))] and its length is [numAssignedAssets()]. *)
Record Env (Ledger : Type) : Type := {
  universe : list (address * PriceFeedProtocol);
  participation : ParticipationProtocol;
  rewards : RewardsProtocol;
  assets : AssetProtocol Ledger;
  this : address;
  msg_sender : address;
  now : Z
}.

Arguments universe {Ledger} _.
Arguments participation {Ledger} _.
Arguments rewards {Ledger} _.
Arguments assets {Ledger} _.
Arguments this {Ledger} _.
Arguments msg_sender {Ledger} _.
Arguments now {Ledger} _.

(** What the Logger contract is told. *)
Inductive LogEntry : Type :=
| logSubscribed (who : address) (atTime numShares : Z)
| logRedeemed (who : address) (atTime numShares : Z)
| logRewardsConverted (atTime numShares unclaimed : Z)
| logCalculationUpdate (atTime management performance netValue price supply : Z).

(** Calls that leave the vault, in the order they are made.  A token call
    hands control to the token contract, and through it possibly to the
    recipient: [seen] is the vault storage such code reads if it calls back
    into the vault.  Recorded are the calls that move tokens, [transfer] and
    [transferFrom], and the entries the non-constant methods send to the
    logger.  Reads of other contracts (balances, decimals, the universe, the
    feeds, the participation and rewards modules) are not events, and neither
    is what the constant methods log. *)
Inductive Event : Type :=
| CallTransfer (asset to : address) (amount : Z) (seen : Storage)
| CallTransferFrom (asset from to : address) (amount : Z) (seen : Storage)
| CallLogger (entry : LogEntry).

Record State (Ledger : Type) : Type := mkState {
  storage : Storage;
  ledger : Ledger;
  trace : list Event
}.

Arguments mkState {Ledger} _ _ _.
Arguments storage {Ledger} _.
Arguments ledger {Ledger} _.
Arguments trace {Ledger} _.

(** *** Storage access *)

Definition balanceOfHolder (s : Storage) (ofHolder : address) : Z :=
  default 0 (balances s !! ofHolder).

Definition set_balances (s : Storage) (b : gmap address Z) : Storage :=
  mkStorage b (totalSupply s) (owner s) (decimals s) (baseUnitsPerShare s)
    (referenceAsset s) (subscriptionFee s) (atLastPayout s).

Definition set_totalSupply (s : Storage) (n : Z) : Storage :=
  mkStorage (balances s) n (owner s) (decimals s) (baseUnitsPerShare s)
    (referenceAsset s) (subscriptionFee s) (atLastPayout s).

Definition set_atLastPayout (s : Storage) (c : Calculations) : Storage :=
  mkStorage (balances s) (totalSupply s) (owner s) (decimals s)
    (baseUnitsPerShare s) (referenceAsset s) (subscriptionFee s) c.

(** The sum of all holders' share balances. *)
Definition sumBalances (b : gmap address Z) : Z :=
  map_fold (fun _ v acc => v + acc) 0 b.

(** Conservation of shares: the balances add up to the total supply. *)
Definition conserved (s : Storage) : Prop :=
  sumBalances (balances s) = totalSupply s.

(** Every outbound token transfer among [events] was made while the vault
    storage satisfied [P]. *)
Definition transfersSee (P : Storage -> Prop) (events : list Event) : Prop :=
  Forall
    (fun ev =>
       match ev with
       | CallTransfer _ _ _ seen => P seen
       | _ => True
       end)
    events.

(** *** Pre, post and invariant conditions *)

Definition isZero (x : Z) : bool := 0 =? x.
Definition isPastZero (x : Z) : bool := 0 <? x.
Definition balancesOfHolderAtLeast (s : Storage) (ofHolder : address) (x : Z) : bool :=
  balanceOfHolder s ofHolder >=? x.
Definition atLeastThreshold (x : Z) : bool := x >=? SUBSCRIBE_THRESHOLD.

Section Contract.

Context {Ledger : Type} (E : Env Ledger).

(** *** Constant methods: accounting

    These read the storage and the token balances.  The one call they make
    that is not a read, [logger.logPortfolioContent] in [calcGav], only emits
    an event and is left out. *)

Definition calcValuePerShare (s : Storage) (value : Z) : result Z :=
  pre_cond (isPastZero (totalSupply s));;
  scaled ← SafeMath.mul value (baseUnitsPerShare s);
  SafeMath.div scaled (totalSupply s).

(** Body of the loop of [calcGav] over the assigned assets. *)
Fixpoint calcGavFrom (s : Storage) (l : Ledger)
    (assigned : list (address * PriceFeedProtocol)) (gav : Z) : result Z :=
  match assigned with
  | [] => Ok gav
  | (ofAsset, Price) :: rest =>
      let assetHoldings := balanceOf (assets E) l ofAsset (this E) in
      let assetDecimals := getDecimals (assets E) ofAsset in
      let quoteAsset := getQuoteAsset Price in
      assert (referenceAsset s =? quoteAsset);;
      let assetPrice :=
        if ofAsset =? quoteAsset then pow10 assetDecimals
        else getPrice Price ofAsset in
      product ← SafeMath.mul assetHoldings assetPrice;
      value ← SafeMath.div product (pow10 assetDecimals);
      gav' ← SafeMath.add gav value;
      calcGavFrom s l rest gav'
  end.

Definition calcGav (s : Storage) (l : Ledger) : result Z :=
  calcGavFrom s l (universe E) 0.

Definition calcUnclaimedRewards (s : Storage) (gav : Z) : result (Z * Z * Z) :=
  timeDifference ← SafeMath.sub (now E) (timestamp (atLastPayout s));
  managementReward ← calculateManagementReward (rewards E) timeDifference gav;
  performanceReward ←
    (if negb (totalSupply s =? 0) then
       currSharePrice ← calcValuePerShare s gav;
       if currSharePrice >? sharePrice (atLastPayout s) then
         calculatePerformanceReward (rewards E)
           (raw_sub currSharePrice (sharePrice (atLastPayout s))) (totalSupply s)
       else Ok 0
     else Ok 0);
  unclaimedRewards ← SafeMath.add managementReward performanceReward;
  Ok (managementReward, performanceReward, unclaimedRewards).

Definition calcNav (gav unclaimedRewards : Z) : result Z :=
  SafeMath.sub gav unclaimedRewards.

Definition performCalculations (s : Storage) (l : Ledger)
    : result (Z * Z * Z * Z * Z * Z) :=
  gav ← calcGav s l;
  '(managementReward, performanceReward, unclaimedRewards) ← calcUnclaimedRewards s gav;
  nav ← calcNav gav unclaimedRewards;
  sharePrice ←
    (if isPastZero (totalSupply s) then calcValuePerShare s nav
     else Ok (baseUnitsPerShare s));
  Ok (gav, managementReward, performanceReward, unclaimedRewards, nav, sharePrice).

Definition priceForNumShares (s : Storage) (l : Ledger) (numShares : Z) : result Z :=
  '(_, _, _, _, _, sharePrice) ← performCalculations s l;
  product ← SafeMath.mul numShares sharePrice;
  SafeMath.div product (baseUnitsPerShare s).

Definition subscribePriceForNumShares (s : Storage) (l : Ledger) (numShares : Z)
    : result Z :=
  price ← priceForNumShares s l numShares;
  factor ← SafeMath.sub SUBSCRIBE_FEE_DIVISOR (subscriptionFee s);
  product ← SafeMath.mul price factor;
  SafeMath.div product SUBSCRIBE_FEE_DIVISOR.

(** *** Calls that leave the vault *)

Definition emit (ev : Event) (st : State Ledger) : State Ledger :=
  mkState (storage st) (ledger st) (trace st ++ [ev]).

Definition log (entry : LogEntry) (st : State Ledger) : State Ledger :=
  emit (CallLogger entry) st.

(** [Asset.transfer(to, amount)], called by the vault. *)
Definition callTransfer (asset to : address) (amount : Z) (st : State Ledger)
    : result (bool * State Ledger) :=
  let st' := emit (CallTransfer asset to amount (storage st)) st in
  '(success, l') ← transfer (assets E) (ledger st') asset (this E) to amount;
  Ok (success, mkState (storage st') l' (trace st')).

(** [Asset.transferFrom(from, to, amount)], called by the vault. *)
Definition callTransferFrom (asset from to : address) (amount : Z) (st : State Ledger)
    : result (bool * State Ledger) :=
  let st' := emit (CallTransferFrom asset from to amount (storage st)) st in
  '(success, l') ← transferFrom (assets E) (ledger st') asset (this E) from to amount;
  Ok (success, mkState (storage st') l' (trace st')).

(** *** Share accounting *)

Definition addShares (recipient : address) (numShares : Z) (s : Storage)
    : result Storage :=
  balance ← SafeMath.add (balanceOfHolder s recipient) numShares;
  Ok (set_balances s (<[recipient := balance]> (balances s))).

Definition subShares (recipient : address) (numShares : Z) (s : Storage)
    : result Storage :=
  balance ← SafeMath.sub (balanceOfHolder s recipient) numShares;
  Ok (set_balances s (<[recipient := balance]> (balances s))).

Definition createShares (recipient : address) (numShares : Z) (s : Storage)
    : result Storage :=
  supply ← SafeMath.add (totalSupply s) numShares;
  addShares recipient numShares (set_totalSupply s supply).

Definition annihilateShares (recipient : address) (numShares : Z) (s : Storage)
    : result Storage :=
  supply ← SafeMath.sub (totalSupply s) numShares;
  subShares recipient numShares (set_totalSupply s supply).

Definition onStorage (f : Storage -> result Storage) (st : State Ledger)
    : result (State Ledger) :=
  s' ← f (storage st);
  Ok (mkState s' (ledger st) (trace st)).

(** *** Participation *)

(** Loop of [allocateSlice]; [totalSupply] is read at every iteration. *)
Fixpoint allocateSliceFrom (numShares : Z)
    (assigned : list (address * PriceFeedProtocol)) (st : State Ledger)
    : result (State Ledger) :=
  match assigned with
  | [] => Ok st
  | (Asset, _) :: rest =>
      let vaultHoldings := balanceOf (assets E) (ledger st) Asset (this E) in
      if vaultHoldings =? 0 then allocateSliceFrom numShares rest st
      else
        product ← SafeMath.mul vaultHoldings numShares;
        allocationAmount ← SafeMath.div product (totalSupply (storage st));
        let senderHoldings := balanceOf (assets E) (ledger st) Asset (msg_sender E) in
        require (senderHoldings >=? allocationAmount);;
        '(success, st') ← callTransferFrom Asset (msg_sender E) (this E) allocationAmount st;
        assert success;;
        allocateSliceFrom numShares rest st'
  end.

Definition allocateSlice (numShares : Z) (st : State Ledger) : result (State Ledger) :=
  st' ← allocateSliceFrom numShares (universe E) st;
  (* Issue _after_ external calls *)
  onStorage (createShares (msg_sender E) numShares) st'.

(** Loop of [separateSlice]. *)
Fixpoint separateSliceFrom (numShares prevTotalSupply : Z)
    (assigned : list (address * PriceFeedProtocol)) (st : State Ledger)
    : result (State Ledger) :=
  match assigned with
  | [] => Ok st
  | (Asset, _) :: rest =>
      let vaultHoldings := balanceOf (assets E) (ledger st) Asset (this E) in
      if vaultHoldings =? 0 then separateSliceFrom numShares prevTotalSupply rest st
      else
        product ← SafeMath.mul vaultHoldings numShares;
        separationAmount ← SafeMath.div product prevTotalSupply;
        '(success, st') ← callTransfer Asset (msg_sender E) separationAmount st;
        assert success;;
        separateSliceFrom numShares prevTotalSupply rest st'
  end.

Definition separateSlice (numShares : Z) (st : State Ledger) : result (State Ledger) :=
  prevTotalSupply ←
    SafeMath.sub (totalSupply (storage st)) (unclaimedRewards (atLastPayout (storage st)));
  assert (isPastZero prevTotalSupply);;
  (* Destroy _before_ external calls to prevent reentrancy *)
  st' ← onStorage (annihilateShares (msg_sender E) numShares) st;
  separateSliceFrom numShares prevTotalSupply (universe E) st'.

Definition subscribeUsingSlice (numShares : Z) (st : State Ledger)
    : result (State Ledger) :=
  pre_cond (isPastZero (totalSupply (storage st)));;
  pre_cond (isPastZero numShares);;
  st' ← allocateSlice numShares st;
  Ok (log (logSubscribed (msg_sender E) (now E) numShares) st').

Definition redeemUsingSlice (numShares : Z) (st : State Ledger)
    : result (State Ledger) :=
  pre_cond (balancesOfHolderAtLeast (storage st) (msg_sender E) numShares);;
  st' ← separateSlice numShares st;
  Ok (log (logRedeemed (msg_sender E) (now E) numShares) st').

Definition subscribe (numShares offeredValue : Z) (st : State Ledger)
    : result (State Ledger) :=
  pre_cond (isSubscriberPermitted (participation E) (msg_sender E) numShares);;
  pre_cond (isSubscribePermitted (participation E) (msg_sender E) numShares);;
  if isZero numShares then subscribeUsingSlice numShares st
  else
    actualValue ← subscribePriceForNumShares (storage st) (ledger st) numShares;
    assert (offeredValue >=? actualValue);;
    '(success, st1) ←
      callTransferFrom (referenceAsset (storage st)) (msg_sender E) (this E) actualValue st;
    assert success;;
    st2 ← onStorage (createShares (msg_sender E) numShares) st1;
    Ok (log (logSubscribed (msg_sender E) (now E) numShares) st2).

Definition redeem (numShares requestedValue : Z) (st : State Ledger)
    : result (State Ledger) :=
  pre_cond (isPastZero numShares);;
  pre_cond (isRedeemPermitted (participation E) (msg_sender E) numShares);;
  actualValue ← priceForNumShares (storage st) (ledger st) numShares;
  assert (requestedValue <=? actualValue);;
  '(success, st1) ← callTransfer (referenceAsset (storage st)) (msg_sender E) actualValue st;
  assert success;;
  st2 ← onStorage (annihilateShares (msg_sender E) numShares) st1;
  Ok (log (logRedeemed (msg_sender E) (now E) numShares) st2).

(** *** Rewards *)

(** Modelled from the spec: [isOwner] comes from Owned.sol, which is not
    part of the tree; Section 4.4 of the specification gates the settlement
    of fees to the fund owner, so the caller is compared with [owner]. *)
Definition isOwner (s : Storage) : bool := msg_sender E =? owner s.

Definition convertUnclaimedRewards (st : State Ledger) : result (State Ledger) :=
  pre_cond (isOwner (storage st));;
  '(gav, managementReward, performanceReward, unclaimedRewards, nav, sharePrice) ←
    performCalculations (storage st) (ledger st);
  assert (isPastZero gav);;
  (* Accounting: Allocate unclaimedRewards to this fund *)
  product ← SafeMath.mul (totalSupply (storage st)) unclaimedRewards;
  numShares ← SafeMath.div product gav;
  st1 ← onStorage (addShares (owner (storage st)) numShares) st;
  (* Update Calculations *)
  let snapshot :=
    mkCalculations gav managementReward performanceReward unclaimedRewards nav
      sharePrice (totalSupply (storage st1)) (now E) in
  let st2 := mkState (set_atLastPayout (storage st1) snapshot) (ledger st1) (trace st1) in
  let st3 := log (logRewardsConverted (now E) numShares unclaimedRewards) st2 in
  Ok (log (logCalculationUpdate (now E) managementReward performanceReward nav
             sharePrice (totalSupply (storage st3))) st3).

End Contract.

End Vault.

(** ** The ValueInterpreter contract *)

Module ValueInterpreter.

(** *** Price feeds

    The two feeds and the tokens are other contracts, known by their
    interfaces (Section 6 of the specification).  They answer every query: a
    call to a feed returns. *)

Module IPrimitivePriceFeed.
Record t : Type := {
  isSupportedAsset : address -> bool;
  getLiveRate : address -> address -> Z * bool;
  getCanonicalRate : address -> address -> Z * bool * Z
}.
End IPrimitivePriceFeed.

Module IDerivativePriceFeed.
Record t : Type := {
  isSupportedAsset : address -> bool;
  getRatesToUnderlyings : address -> list address * list Z
}.
End IDerivativePriceFeed.

(** The contracts found at each address: [IPrimitivePriceFeed(a)],
    [IDerivativePriceFeed(a)] and [IERC20Extended(a).decimals()]. *)
Record World : Type := {
  primitivePriceFeedAt : address -> IPrimitivePriceFeed.t;
  derivativePriceFeedAt : address -> IDerivativePriceFeed.t;
  decimals : address -> Z
}.

Definition RATE_PRECISION : Z := 18.

Section Contract.

Context (W : World).

Definition __calcDenormalizedConversionAmount
    (_baseAsset : address) (_baseAssetAmount : Z) (_quoteAsset : address)
    (_normalizedRate : Z) : result Z :=
  scaled ← SafeMath.mul _normalizedRate _baseAssetAmount;
  numerator ← SafeMath.mul scaled (pow10 (decimals W _quoteAsset));
  exponent ← SafeMath.add RATE_PRECISION (decimals W _baseAsset);
  SafeMath.div numerator (pow10 exponent).

Definition __calcPrimitiveValue
    (_primitivePriceFeed _primitive : address) (_amount : Z) (_quoteAsset : address)
    (_useLiveRate : bool) : result (Z * bool) :=
  let priceFeedContract := primitivePriceFeedAt W _primitivePriceFeed in
  let '(rate, isValid_) :=
    if _useLiveRate then
      IPrimitivePriceFeed.getLiveRate priceFeedContract _primitive _quoteAsset
    else
      let '(rate, isValid_, _) :=
        IPrimitivePriceFeed.getCanonicalRate priceFeedContract _primitive _quoteAsset in
      (rate, isValid_) in
  value_ ← __calcDenormalizedConversionAmount _primitive _amount _quoteAsset rate;
  Ok (value_, isValid_).

(** The loop of [__calcDerivativeValue] from index [i] on: [todo] holds
    [underlyings[i..]], and [rates[i]] is read by index, which aborts when it
    is out of bounds.  [calcAssetValue] is the recursive call to
    [__calcAssetValue] on an underlying. *)
Fixpoint derivativeValueFrom
    (calcAssetValue : address -> Z -> result (Z * bool))
    (_derivative : address) (_amount : Z) (rates : list Z)
    (i : nat) (todo : list address) (value_ : Z) (isValid_ : bool)
    : result (Z * bool) :=
  match todo with
  | [] => Ok (value_, isValid_)
  | underlying :: rest =>
      match rates !! i with
      | None => Revert
      | Some rate =>
          underlyingAmount ←
            __calcDenormalizedConversionAmount _derivative _amount underlying rate;
          '(underlyingValue, underlyingIsValid) ← calcAssetValue underlying underlyingAmount;
          let isValid' := if negb underlyingIsValid then false else isValid_ in
          value' ← SafeMath.add value_ underlyingValue;
          derivativeValueFrom calcAssetValue _derivative _amount rates (S i) rest
            value' isValid'
      end
  end.

Definition __calcDerivativeValue
    (calcAssetValue : address -> Z -> result (Z * bool))
    (_derivativePriceFeed _derivative : address) (_amount : Z) : result (Z * bool) :=
  let '(underlyings, rates) :=
    IDerivativePriceFeed.getRatesToUnderlyings
      (derivativePriceFeedAt W _derivativePriceFeed) _derivative in
  (* Let validity be negated if any of the underlying value caculations are invalid. *)
  derivativeValueFrom calcAssetValue _derivative _amount rates 0 underlyings 0 true.

(** [__calcAssetValue] and [__calcDerivativeValue] call each other; a
    derivative that lists itself among its underlyings makes the recursion
    endless, and the call then runs out of gas.  [gas] bounds the depth of
    calls to [__calcAssetValue]. *)
Fixpoint __calcAssetValue (gas : nat)
    (_primitivePriceFeed _derivativePriceFeed _baseAsset : address) (_amount : Z)
    (_quoteAsset : address) (_useLiveRate : bool) : result (Z * bool) :=
  match gas with
  | O => OutOfGas
  | S gas' =>
      let primitivePriceFeedContract := primitivePriceFeedAt W _primitivePriceFeed in
      if (_primitivePriceFeed =? 0) || (_baseAsset =? 0) || (_quoteAsset =? 0)
         || (_amount =? 0)
         || negb (IPrimitivePriceFeed.isSupportedAsset primitivePriceFeedContract _quoteAsset)
      then Ok (0, false)
      else if IPrimitivePriceFeed.isSupportedAsset primitivePriceFeedContract _baseAsset
      then __calcPrimitiveValue _primitivePriceFeed _baseAsset _amount _quoteAsset _useLiveRate
      else if negb (_derivativePriceFeed =? 0)
              && IDerivativePriceFeed.isSupportedAsset
                   (derivativePriceFeedAt W _derivativePriceFeed) _baseAsset
      then
        __calcDerivativeValue
          (fun underlying underlyingAmount =>
             __calcAssetValue gas' _primitivePriceFeed _derivativePriceFeed underlying
               underlyingAmount _quoteAsset _useLiveRate)
          _derivativePriceFeed _baseAsset _amount
      else Ok (0, false)
  end.

Definition calcCanonicalAssetValue (gas : nat)
    (_primitivePriceFeed _derivativePriceFeed _baseAsset : address) (_amount : Z)
    (_quoteAsset : address) : result (Z * bool) :=
  __calcAssetValue gas _primitivePriceFeed _derivativePriceFeed _baseAsset _amount
    _quoteAsset false.

Definition calcLiveAssetValue (gas : nat)
    (_primitivePriceFeed _derivativePriceFeed _baseAsset : address) (_amount : Z)
    (_quoteAsset : address) : result (Z * bool) :=
  __calcAssetValue gas _primitivePriceFeed _derivativePriceFeed _baseAsset _amount
    _quoteAsset true.

End Contract.

(** *** The valuation of a derivative, as the specification words it

    The derivative is decomposed into (underlying, amount) pairs with the
    per-unit rates of the derivative feed; each pair is valued; the values are
    summed and the validity flags AND-reduced. *)

Definition sumValues (results : list (Z * bool)) : Z :=
  foldr (fun r acc => r.1 + acc) 0 results.

Definition allValid (results : list (Z * bool)) : bool :=
  forallb snd results.

(** [results] values the underlyings [pairs], one by one. *)
Definition valuesUnderlyings (W : World)
    (calcAssetValue : address -> Z -> result (Z * bool))
    (_derivative : address) (_amount : Z)
    (pairs : list (address * Z)) (results : list (Z * bool)) : Prop :=
  Forall2
    (fun (p : address * Z) (r : Z * bool) =>
       exists underlyingAmount,
         __calcDenormalizedConversionAmount W _derivative _amount p.1 p.2
           = Ok underlyingAmount
         /\ calcAssetValue p.1 underlyingAmount = Ok r)
    pairs results.

(** Every running total fits a [uint256]. *)
Definition sumsFit (results : list (Z * bool)) : Prop :=
  forall k : nat, sumValues (take k results) <= MAX_UINT256.

End ValueInterpreter.

(** ** Concrete collaborators and scenarios *)

Module Scenario.

Import Vault.

(** Modelled from the spec: the Rewards module behind [RewardsProtocol] is a
    contract whose source is not part of the tree.  Section 4.2 of the
    specification makes the management fee a rate-per-time-unit function of
    elapsed time and gav, and the performance fee proportional to the share
    price difference times the total supply, scaled to the value domain. *)
Definition proportionalRewards (managementRate performanceRate divisor : Z)
    : RewardsProtocol :=
  {| calculateManagementReward timeDifference gav :=
       absoluteChange ← SafeMath.mul timeDifference gav;
       scaled ← SafeMath.mul absoluteChange managementRate;
       SafeMath.div scaled divisor;
     calculatePerformanceReward sharePriceDifference totalSupply :=
       absoluteChange ← SafeMath.mul sharePriceDifference totalSupply;
       scaled ← SafeMath.mul absoluteChange performanceRate;
       SafeMath.div scaled divisor |}.

(** Modelled from the spec: asset tokens are contracts outside the tree;
    Section 6 of the specification describes them as the standard
    value-transfer primitive.  This one keeps a balance per (asset, holder),
    moves [amount] when the payer holds it and reports failure otherwise;
    it has 18 decimals and no allowances. *)
Definition holdings (l : gmap (address * address) Z) (asset holder : address) : Z :=
  default 0 (l !! (asset, holder)).

Definition move (l : gmap (address * address) Z) (asset from to : address) (amount : Z)
    : result (bool * gmap (address * address) Z) :=
  if holdings l asset from <? amount then Ok (false, l)
  else
    let l1 := <[(asset, from) := holdings l asset from - amount]> l in
    Ok (true, <[(asset, to) := holdings l1 asset to + amount]> l1).

Definition standardTokens : AssetProtocol (gmap (address * address) Z) :=
  {| balanceOf := holdings;
     getDecimals := fun _ => 18;
     transfer := move;
     transferFrom := fun l asset _ from to amount => move l asset from to amount |}.

Definition openParticipation : ParticipationProtocol :=
  {| isSubscriberPermitted := fun _ _ => true;
     isSubscribePermitted := fun _ _ => true;
     isRedeemPermitted := fun _ _ => true |}.

(** A fund quoted in one reference asset: the vault at address 1 holds 1100
    base units of the reference asset 100; the investor 3 holds all 1000
    shares; the manager 2 owns the fund.  One share is 10 base units, the
    last payout recorded the initial share price 10 at time 0, and it is now
    time 100. *)
Definition weth : address := 100.
Definition vaultAddress : address := 1.
Definition manager : address := 2.
Definition investor : address := 3.

Definition wethFeed : PriceFeedProtocol :=
  {| getQuoteAsset := weth; getPrice := fun _ => 0 |}.

Definition fundEnv (sender : address) : Env (gmap (address * address) Z) :=
  {| universe := [(weth, wethFeed)];
     participation := openParticipation;
     rewards := proportionalRewards 1 100 1000;
     assets := standardTokens;
     this := vaultAddress;
     msg_sender := sender;
     now := 100 |}.

Definition fundStorage : Storage :=
  {| balances := {[ investor := 1000 ]};
     totalSupply := 1000;
     owner := manager;
     decimals := 1;
     baseUnitsPerShare := 10;
     referenceAsset := weth;
     subscriptionFee := 1000;
     atLastPayout := mkCalculations 0 0 0 0 0 10 0 0 |}.

Definition fundLedger : gmap (address * address) Z :=
  {[ (weth, vaultAddress) := 1100 ]}.

Definition fundState : State (gmap (address * address) Z) :=
  mkState fundStorage fundLedger [].

(** The same fund before any subscription: no shares, empty vault. *)
Definition emptyFundStorage : Storage :=
  {| balances := ∅;
     totalSupply := 0;
     owner := manager;
     decimals := 1;
     baseUnitsPerShare := 10;
     referenceAsset := weth;
     subscriptionFee := 1000;
     atLastPayout := mkCalculations 0 0 0 0 0 10 0 0 |}.

(** Price feeds for the interpreter.  The primitive feed sits at address
    10 and the derivative feed at 11.  [weth] (100) and [dai] (101) are
    primitives; the pool token [lp] (200) is a derivative over both; nobody
    knows asset 300.  All tokens have 18 decimals.  One [dai] is 0.01 [weth];
    the live [dai] rate is flagged invalid, the canonical one valid.  One
    [lp] stands for 0.5 [weth] and 2 [dai]. *)
Definition dai : address := 101.
Definition lp : address := 200.
Definition primitiveFeed : address := 10.
Definition derivativeFeed : address := 11.

Definition rateToWeth (asset : address) : Z :=
  if asset =? weth then 10 ^ 18 else 10 ^ 16.

Definition primitives : ValueInterpreter.IPrimitivePriceFeed.t :=
  {| ValueInterpreter.IPrimitivePriceFeed.isSupportedAsset :=
       fun asset => (asset =? weth) || (asset =? dai);
     ValueInterpreter.IPrimitivePriceFeed.getLiveRate :=
       fun asset _ => (rateToWeth asset, asset =? weth);
     ValueInterpreter.IPrimitivePriceFeed.getCanonicalRate :=
       fun asset _ => (rateToWeth asset, true, 0) |}.

Definition derivatives : ValueInterpreter.IDerivativePriceFeed.t :=
  {| ValueInterpreter.IDerivativePriceFeed.isSupportedAsset := fun asset => asset =? lp;
     ValueInterpreter.IDerivativePriceFeed.getRatesToUnderlyings :=
       fun _ => ([weth; dai], [5 * 10 ^ 17; 2 * 10 ^ 18]) |}.

Definition world : ValueInterpreter.World :=
  {| ValueInterpreter.primitivePriceFeedAt := fun _ => primitives;
     ValueInterpreter.derivativePriceFeedAt := fun _ => derivatives;
     ValueInterpreter.decimals := fun _ => 18 |}.

End Scenario.

Import Scenario.

(** ** The Vault contract: subscription fee and managing *)

Module VaultManaging.

Import DBC Vault.

Definition set_subscriptionFee (s : Storage) (fee : Z) : Storage :=
  mkStorage (balances s) (totalSupply s) (owner s) (Vault.decimals s)
    (baseUnitsPerShare s) (referenceAsset s) fee (atLastPayout s).

(** The function has the threshold as its only condition: any caller may
    set the fee. *)
Definition setSubscriptionFee (newFee : Z) (s : Storage) : result Storage :=
  pre_cond (atLeastThreshold newFee);;
  Ok (set_subscriptionFee s newFee).

(** *** Collaborators of the managing functions *)

(** The part of the universe module that trading consults. *)
Record UniverseProtocol : Type := {
  assetAvailability : address -> bool;
  assignedExchange : address -> address
}.

Record RiskMgmtProtocol : Type := {
  isExchangeMakePermitted : address -> Z -> address -> Z -> address -> bool;
  isExchangeTakePermitted : address -> Z -> address -> Z -> address -> address -> bool
}.

(** Exchanges and token allowances, over an arbitrary state [Market] of
    those contracts.  The first address of [make], [take] and [cancel] is the
    exchange called and the second the caller, the vault; [approve m token
    holder spender amount] is [token.approve(spender, amount)] called by
    [holder].  An order is (buy amount, buy token, sell amount, sell token),
    as [getOrder] returns it. *)
Record ExchangeProtocol (Market : Type) : Type := {
  make : Market -> address -> address -> Z -> address -> Z -> address -> result (Z * Market);
  getOrder : Market -> address -> Z -> Z * address * Z * address;
  getOwner : Market -> address -> Z -> address;
  take : Market -> address -> address -> Z -> Z -> result (bool * Market);
  cancel : Market -> address -> address -> Z -> result (bool * Market);
  approve : Market -> address -> address -> address -> Z -> result (bool * Market)
}.

Arguments make {Market} _ _ _ _ _ _ _ _.
Arguments getOrder {Market} _ _ _ _.
Arguments getOwner {Market} _ _ _ _.
Arguments take {Market} _ _ _ _ _ _.
Arguments cancel {Market} _ _ _ _ _.
Arguments approve {Market} _ _ _ _ _ _.

(** Calls made while managing, in order. *)
Inductive ManagingEvent : Type :=
| CallApprove (ofToken onExchange : address) (amount : Z)
| LogSpendingApproved (ofToken onExchange : address) (amount : Z)
| CallMake (onExchange : address) (sell_how_much : Z) (sell_which_token : address)
    (buy_how_much : Z) (buy_which_token : address)
| CallTake (onExchange : address) (id wantedBuyAmount : Z)
| CallCancel (onExchange : address) (id : Z).

Section Managing.

Context {Ledger Market : Type}.
Context (E : Env Ledger) (U : UniverseProtocol) (R : RiskMgmtProtocol)
  (X : ExchangeProtocol Market).

Definition requireIsWithinKnownUniverse (s : Storage)
    (onExchange sell_which_token buy_which_token : address) : result unit :=
  (* Asset pair defined in Universe and contains referenceAsset *)
  require (assetAvailability U buy_which_token);;
  require (assetAvailability U sell_which_token);;
  require ((buy_which_token =? referenceAsset s) || (sell_which_token =? referenceAsset s));;
  require (negb (buy_which_token =? referenceAsset s)
           || negb (sell_which_token =? referenceAsset s));;
  (* Exchange assigned to tokens in Universe *)
  require (onExchange =? assignedExchange U buy_which_token);;
  require (onExchange =? assignedExchange U sell_which_token).

Definition approveSpending (ofToken onExchange : address) (amount : Z)
    (st : Market * list ManagingEvent) : result (Market * list ManagingEvent) :=
  '(success, m') ← approve X st.1 ofToken (this E) onExchange amount;
  assert success;;
  Ok (m', st.2 ++ [CallApprove ofToken onExchange amount;
                   LogSpendingApproved ofToken onExchange amount]).

Definition makeOrder (s : Storage) (onExchange : address)
    (sell_how_much : Z) (sell_which_token : address)
    (buy_how_much : Z) (buy_which_token : address)
    (st : Market * list ManagingEvent) : result (Z * (Market * list ManagingEvent)) :=
  pre_cond (isOwner E s);;
  pre_cond (isExchangeMakePermitted R onExchange sell_how_much sell_which_token
              buy_how_much buy_which_token);;
  requireIsWithinKnownUniverse s onExchange sell_which_token buy_which_token;;
  st1 ← approveSpending sell_which_token onExchange sell_how_much st;
  '(id, m') ← make X st1.1 onExchange (this E) sell_how_much sell_which_token
                buy_how_much buy_which_token;
  Ok (id, (m', st1.2 ++ [CallMake onExchange sell_how_much sell_which_token
                            buy_how_much buy_which_token])).

Definition takeOrder (s : Storage) (onExchange : address) (id wantedBuyAmount : Z)
    (st : Market * list ManagingEvent) : result (bool * (Market * list ManagingEvent)) :=
  pre_cond (isOwner E s);;
  (* Inverse variable terminology! Buying what another person is selling *)
  let '(offeredBuyAmount, offeredBuyToken, offeredSellAmount, offeredSellToken) :=
    getOrder X st.1 onExchange id in
  require (wantedBuyAmount <=? offeredBuyAmount);;
  requireIsWithinKnownUniverse s onExchange offeredSellToken offeredBuyToken;;
  let orderOwner := getOwner X st.1 onExchange id in
  require (isExchangeTakePermitted R onExchange offeredSellAmount offeredSellToken
             offeredBuyAmount offeredBuyToken orderOwner);;
  product ← SafeMath.mul wantedBuyAmount offeredSellAmount;
  wantedSellAmount ← SafeMath.div product offeredBuyAmount;
  st1 ← approveSpending offeredSellToken onExchange wantedSellAmount st;
  '(success, m') ← take X st1.1 onExchange (this E) id wantedBuyAmount;
  Ok (success, (m', st1.2 ++ [CallTake onExchange id wantedBuyAmount])).

Definition cancelOrder (s : Storage) (onExchange : address) (id : Z)
    (st : Market * list ManagingEvent) : result (bool * (Market * list ManagingEvent)) :=
  pre_cond (isOwner E s);;
  '(success, m') ← cancel X st.1 onExchange (this E) id;
  Ok (success, (m', st.2 ++ [CallCancel onExchange id])).

End Managing.

End VaultManaging.

(** The value [calcGav] adds for one assigned asset: holdings times price,
    over ten to the asset's decimals; an asset that is its feed's quote asset
    is priced at ten to its decimals. *)
Definition assetValue {Ledger : Type} (E : Vault.Env Ledger) (l : Ledger)
    (entry : address * Vault.PriceFeedProtocol) : Z :=
  let assetHoldings := Vault.balanceOf (Vault.assets E) l entry.1 (Vault.this E) in
  let assetDecimals := Vault.getDecimals (Vault.assets E) entry.1 in
  let assetPrice :=
    if entry.1 =? Vault.getQuoteAsset entry.2 then pow10 assetDecimals
    else Vault.getPrice entry.2 entry.1 in
  assetHoldings * assetPrice / pow10 assetDecimals.

(** The calls among [events] that move tokens. *)
Definition tokenTransfers (events : list Vault.Event) : list Vault.Event :=
  List.filter
    (fun ev =>
       match ev with
       | Vault.CallTransfer _ _ _ _ => true
       | Vault.CallTransferFrom _ _ _ _ _ => true
       | Vault.CallLogger _ => false
       end)
    events.

(** ** The AmguConsumer base contract *)

Module AmguConsumer.

(** What the registry, the engine and the value interpreter answer, and
    what happens to ether that leaves the contract.  [calcCanonicalAssetValue]
    is the interpreter the registry names, with the three arguments this
    contract passes; [payAmguInEther v] is the payable call to the engine and
    [send v] is [msg.sender.send(v)], which reports failure by its result. *)
Record Collaborators : Type := {
  incentive : Z;
  getAmguPrice : Z;
  MLN_TOKEN : address;
  WETH_TOKEN : address;
  calcCanonicalAssetValue : address -> Z -> address -> result (Z * bool);
  payAmguInEther : Z -> result unit;
  send : Z -> bool
}.

Inductive Event : Type :=
| PaidAmguInEther (value : Z)
| AmguPaid (payer : address) (totalAmguPaidInEth amguChargableGas : Z)
| Sent (to : address) (value : Z)
| IncentivePaid (payer : address) (incentiveAmount : Z).

Section Contract.

Context (C : Collaborators) (msg_sender : address) (msg_value : Z).

Definition __chargeAmgu (_gasUsed : Z) : result (Z * list Event) :=
  let mlnPerAmgu := getAmguPrice C in
  if mlnPerAmgu >? 0 then
    mlnQuantity ← SafeMath.mul mlnPerAmgu _gasUsed;
    '(ethCharged_, _) ← calcCanonicalAssetValue C (MLN_TOKEN C) mlnQuantity (WETH_TOKEN C);
    require (msg_value >=? ethCharged_);;
    payAmguInEther C ethCharged_;;
    Ok (ethCharged_, [PaidAmguInEther ethCharged_; AmguPaid msg_sender ethCharged_ _gasUsed])
  else Ok (0, []).

Definition __refundExtraEther (_totalEthCharged : Z) : result (list Event) :=
  refund ← SafeMath.sub msg_value _totalEthCharged;
  require (send C refund);;
  Ok [Sent msg_sender refund].

(** The modifier [amguPayable] around a function body: [preGas] and
    [postGas] are what [gasleft()] answers before and after the body. *)
Definition amguPayable {A : Type} (body : result A) (preGas postGas : Z)
    : result (A * list Event) :=
  a ← body;
  gasUsed ← SafeMath.sub preGas postGas;
  '(ethChargedForAmgu, charged) ← __chargeAmgu gasUsed;
  refunded ← __refundExtraEther ethChargedForAmgu;
  Ok (a, charged ++ refunded).

Definition amguPayableWithIncentive {A : Type} (body : result A) (preGas postGas : Z)
    : result (A * list Event) :=
  let incentiveAmount := incentive C in
  require (msg_value >=? incentiveAmount);;
  a ← body;
  gasUsed ← SafeMath.sub preGas postGas;
  '(ethChargedForAmgu, charged) ← __chargeAmgu gasUsed;
  totalEthCharged ← SafeMath.add ethChargedForAmgu incentiveAmount;
  require (msg_value >=? totalEthCharged);;
  total ← SafeMath.add incentiveAmount ethChargedForAmgu;
  refunded ← __refundExtraEther total;
  Ok (a, charged ++ refunded ++ [IncentivePaid msg_sender incentiveAmount]).

End Contract.

(** The ether that leaves the contract in a run: what the engine is paid
    and what is sent back. *)
Definition etherOut (events : list Event) : Z :=
  foldr
    (fun ev acc =>
       match ev with
       | PaidAmguInEther v => v + acc
       | Sent _ v => v + acc
       | _ => acc
       end)
    0 events.

End AmguConsumer.

(** ** The FundRanking contract *)

Module FundRanking.

(** The factory, the hubs and the accounting contracts, by address. *)
Record Chain (Name : Type) : Type := {
  getLastFundId : address -> Z;
  funds : address -> Z -> address;
  accounting : address -> address;
  creationTime : address -> Z;
  name : address -> Name;
  calcSharePrice : address -> Z;
  QUOTE_ASSET : address -> address
}.

Arguments getLastFundId {Name} _ _.
Arguments funds {Name} _ _ _.
Arguments accounting {Name} _ _.
Arguments creationTime {Name} _ _.
Arguments name {Name} _ _.
Arguments calcSharePrice {Name} _ _.
Arguments QUOTE_ASSET {Name} _ _.

Record Details (Name : Type) : Type := mkDetails {
  hubs : list address;
  quoteAssets : list address;
  sharePrices : list Z;
  creationTimes : list Z;
  names : list Name
}.

Arguments mkDetails {Name} _ _ _ _ _.
Arguments hubs {Name} _.
Arguments quoteAssets {Name} _.
Arguments sharePrices {Name} _.
Arguments creationTimes {Name} _.
Arguments names {Name} _.

Section Contract.

Context {Name : Type} (emptyName : Name) (B : Chain Name).

(** One iteration of the loop: the five stores at index [i]. *)
Definition fillFund (_factory : address) (i : nat) (d : Details Name) : Details Name :=
  let hubAddress := funds B _factory (Z.of_nat i) in
  mkDetails
    (<[i := hubAddress]> (hubs d))
    (<[i := QUOTE_ASSET B (accounting B hubAddress)]> (quoteAssets d))
    (<[i := calcSharePrice B (accounting B hubAddress)]> (sharePrices d))
    (<[i := creationTime B hubAddress]> (creationTimes d))
    (<[i := name B hubAddress]> (names d)).

(** The loop for [i] from [from] up, [count] times. *)
Fixpoint fillFrom (_factory : address) (from count : nat) (d : Details Name)
    : Details Name :=
  match count with
  | O => d
  | S count' => fillFrom _factory (S from) count' (fillFund _factory from d)
  end.

(** [numberOfFunds] is [getLastFundId() + 1], unchecked; the arrays are
    allocated with that length, filled with zeros. *)
Definition getFundDetails (_factory : address) : Details Name :=
  let numberOfFunds := Z.to_nat (wrap (getLastFundId B _factory + 1)) in
  fillFrom _factory 0 numberOfFunds
    (mkDetails (replicate numberOfFunds 0) (replicate numberOfFunds 0)
       (replicate numberOfFunds 0) (replicate numberOfFunds 0)
       (replicate numberOfFunds emptyName)).

End Contract.

(** One array of the loop, on its own: index [i] receives [g i], for
    [count] indices from [from] up. *)
Fixpoint fillList {A : Type} (g : nat -> A) (from count : nat) (l : list A) : list A :=
  match count with
  | O => l
  | S count' => fillList g (S from) count' (<[from := g from]> l)
  end.

End FundRanking.

(** ** Scenarios for managing, AMGU and ranking *)

Module ManagingScenario.

Import Vault VaultManaging.

(** The fund trades [weth] against [mln] (102) on the exchange 50.  The
    exchange holds one order, number 7, of the account 9: 200 [mln] offered
    to buy and 50 [weth] offered to sell. *)
Definition mln : address := 102.
Definition oasis : address := 50.

Definition knownUniverse : UniverseProtocol :=
  {| assetAvailability := fun asset => (asset =? weth) || (asset =? mln);
     assignedExchange := fun _ => oasis |}.

Definition permissive : RiskMgmtProtocol :=
  {| isExchangeMakePermitted := fun _ _ _ _ _ => true;
     isExchangeTakePermitted := fun _ _ _ _ _ _ => true |}.

Definition oneOrder : ExchangeProtocol unit :=
  {| make := fun _ _ _ _ _ _ _ => Ok (8, tt);
     getOrder := fun _ _ _ => (200, mln, 50, weth);
     getOwner := fun _ _ _ => 9;
     take := fun _ _ _ _ _ => Ok (true, tt);
     cancel := fun _ _ _ _ => Ok (true, tt);
     approve := fun _ _ _ _ _ => Ok (true, tt) |}.

(** AMGU: the engine asks 2 units of MLN per unit of gas; the interpreter
    values MLN at a tenth of its amount in ether, and flags the value invalid;
    the engine takes every payment and every refund goes through. *)
Definition amguCollaborators : AmguConsumer.Collaborators :=
  {| AmguConsumer.incentive := 30;
     AmguConsumer.getAmguPrice := 2;
     AmguConsumer.MLN_TOKEN := mln;
     AmguConsumer.WETH_TOKEN := weth;
     AmguConsumer.calcCanonicalAssetValue := fun _ quantity _ => Ok (quantity / 10, false);
     AmguConsumer.payAmguInEther := fun _ => Ok tt;
     AmguConsumer.send := fun _ => true |}.

(** The fund of the first scenario with an investor who holds 500 of the
    reference asset to subscribe with. *)
Definition subscriberState : State (gmap (Z * Z) Z) :=
  mkState fundStorage (<[(weth, investor) := 500]> fundLedger) [].

(** The same fund with unclaimed rewards of 1000 recorded at the last
    payout, as much as there are shares. *)
Definition rewardedState : State (gmap (Z * Z) Z) :=
  mkState
    (set_atLastPayout fundStorage (mkCalculations 1500 1000 0 1000 500 5 1000 50))
    fundLedger [].


(** Tokens that report 256 decimals, and the fund wired to them. *)
Definition wideTokens : AssetProtocol (gmap (Z * Z) Z) :=
  {| balanceOf := holdings;
     getDecimals := fun _ => 256;
     transfer := move;
     transferFrom := fun l asset _ from to amount => move l asset from to amount |}.

Definition wideEnv : Env (gmap (Z * Z) Z) :=
  {| universe := [(weth, wethFeed)];
     participation := openParticipation;
     rewards := proportionalRewards 1 100 1000;
     assets := wideTokens;
     this := vaultAddress;
     msg_sender := investor;
     now := 100 |}.



(** The fund of the first scenario at time 2000: so long after the last
    payout that the management reward alone is twice the gross asset value. *)
Definition lateEnv : Env (gmap (Z * Z) Z) :=
  {| universe := [(weth, wethFeed)];
     participation := openParticipation;
     rewards := proportionalRewards 1 100 1000;
     assets := standardTokens;
     this := vaultAddress;
     msg_sender := manager;
     now := 2000 |}.

End ManagingScenario.

Import ManagingScenario.

(** ** Facts about results and SafeMath *)

Section ResultFacts.

Context {A B : Type}.

Lemma bind_Ok (k : A -> result B) (m : result A) (r : B) :
  m ≫= k = Ok r <-> exists a, m = Ok a /\ k a = Ok r.
Proof.
  destruct m as [a| |]; cbn.
  - split; [intros H; exists a; auto | intros (a' & [= <-] & H); exact H].
  - split; [discriminate | intros (? & [=] & _)].
  - split; [discriminate | intros (? & [=] & _)].
Qed.

Lemma bind_Ok_l (k : A -> result B) (m : result A) (a : A) :
  m = Ok a -> m ≫= k = k a.
Proof. intros ->. reflexivity. Qed.

End ResultFacts.

Lemma MAX_UINT256_nonneg : 0 <= MAX_UINT256.
Proof. apply Z.leb_le. vm_compute. reflexivity. Qed.

Lemma require_Ok (c : bool) (u : unit) : require c = Ok u <-> c = true.
Proof. destruct c, u; cbn; split; (reflexivity || discriminate). Qed.

Lemma assert_Ok (c : bool) (u : unit) : assert c = Ok u <-> c = true.
Proof. apply require_Ok. Qed.

Lemma pre_cond_Ok (c : bool) (u : unit) : DBC.pre_cond c = Ok u <-> c = true.
Proof. apply require_Ok. Qed.

Lemma add_Ok (a b c : Z) :
  SafeMath.add a b = Ok c <-> c = a + b /\ a + b <= MAX_UINT256.
Proof.
  unfold SafeMath.add. destruct (Z.leb_spec (a + b) MAX_UINT256).
  - split; [intros [= <-]; auto | intros [-> _]; reflexivity].
  - split; [discriminate | lia].
Qed.

Lemma sub_Ok (a b c : Z) :
  SafeMath.sub a b = Ok c <-> c = a - b /\ b <= a.
Proof.
  unfold SafeMath.sub. destruct (Z.leb_spec b a).
  - split; [intros [= <-]; auto | intros [-> _]; reflexivity].
  - split; [discriminate | lia].
Qed.

Lemma mul_Ok (a b c : Z) :
  SafeMath.mul a b = Ok c <-> c = a * b /\ a * b <= MAX_UINT256.
Proof.
  unfold SafeMath.mul. destruct (Z.leb_spec (a * b) MAX_UINT256).
  - split; [intros [= <-]; auto | intros [-> _]; reflexivity].
  - split; [discriminate | lia].
Qed.

Lemma div_Ok (a b c : Z) :
  SafeMath.div a b = Ok c <-> c = a / b /\ b <> 0.
Proof.
  unfold SafeMath.div. destruct (Z.eqb_spec b 0).
  - split; [discriminate | intros [_ ?]; contradiction].
  - split; [intros [= <-]; auto | intros [-> _]; reflexivity].
Qed.

(** Take a successful run apart, one call at a time. *)
Ltac invert_ok :=
  repeat match goal with
  | H : Ok _ = Ok _ |- _ => injection H as H; subst
  | H : _ ≫= _ = Ok _ |- _ =>
      let x := fresh "x" in
      let Hx := fresh "Hx" in
      apply bind_Ok in H as (x & Hx & H)
  | H : require _ = Ok _ |- _ => apply require_Ok in H
  | H : assert _ = Ok _ |- _ => apply assert_Ok in H
  | H : DBC.pre_cond _ = Ok _ |- _ => apply pre_cond_Ok in H
  | H : SafeMath.add _ _ = Ok _ |- _ => apply add_Ok in H as [? ?]
  | H : SafeMath.sub _ _ = Ok _ |- _ => apply sub_Ok in H as [? ?]
  | H : SafeMath.mul _ _ = Ok _ |- _ => apply mul_Ok in H as [? ?]
  | H : SafeMath.div _ _ = Ok _ |- _ => apply div_Ok in H as [? ?]
  | H : (let '(_, _) := ?p in _) = Ok _ |- _ => destruct p
  end;
  subst.

(** ** ValueInterpreter: invalid valuations *)

Section InterpreterFacts.

Import ValueInterpreter.

Context (W : World).

Lemma calcAssetValue_guard (gas : nat) (pf df base : address) (amount : Z)
    (quote : address) (live : bool) :
  pf = 0 \/ base = 0 \/ quote = 0 \/ amount = 0
  \/ IPrimitivePriceFeed.isSupportedAsset (primitivePriceFeedAt W pf) quote = false ->
  __calcAssetValue W (S gas) pf df base amount quote live = Ok (0, false).
Proof.
  intros H. cbn [__calcAssetValue].
  destruct (Z.eqb_spec pf 0) as [|Hpf]; [reflexivity|].
  destruct (Z.eqb_spec base 0) as [|Hbase]; [reflexivity|].
  destruct (Z.eqb_spec quote 0) as [|Hquote]; [reflexivity|].
  destruct (Z.eqb_spec amount 0) as [|Hamount]; [reflexivity|].
  destruct H as [?|[?|[?|[?|H]]]]; try contradiction.
  rewrite H. reflexivity.
Qed.

Lemma calcAssetValue_unregistered (gas : nat) (pf df base : address) (amount : Z)
    (quote : address) (live : bool) :
  IPrimitivePriceFeed.isSupportedAsset (primitivePriceFeedAt W pf) base = false ->
  df = 0 \/ IDerivativePriceFeed.isSupportedAsset (derivativePriceFeedAt W df) base = false ->
  __calcAssetValue W (S gas) pf df base amount quote live = Ok (0, false).
Proof.
  intros Hprim Hder. cbn [__calcAssetValue]. rewrite Hprim.
  match goal with |- (if ?c then _ else _) = _ => destruct c; [reflexivity|] end.
  destruct Hder as [-> | ->].
  - reflexivity.
  - rewrite andb_false_r. reflexivity.
Qed.

(** C7.  An asset that neither the primitive feed nor the derivative feed
    supports (or for which no derivative feed is given) is valued
    (0, invalid) by both calcCanonicalAssetValue and calcLiveAssetValue: the
    call returns, it does not abort, whatever the amount, the quote asset and
    the feeds' other answers. *)
Theorem unregistered_asset_valued_zero_invalid
    (gas : nat) (pf df base : address) (amount : Z) (quote : address) :
  IPrimitivePriceFeed.isSupportedAsset (primitivePriceFeedAt W pf) base = false ->
  df = 0 \/ IDerivativePriceFeed.isSupportedAsset (derivativePriceFeedAt W df) base = false ->
  calcCanonicalAssetValue W (S gas) pf df base amount quote = Ok (0, false)
  /\ calcLiveAssetValue W (S gas) pf df base amount quote = Ok (0, false).
Proof.
  intros Hprim Hder.
  split; apply calcAssetValue_unregistered; assumption.
Qed.

(** C10.  Both entry points answer (0, invalid) as soon as the amount is 0,
    or the base asset, the quote asset or the primitive feed is the zero
    address, or the quote asset is not a primitive the feed supports; base
    and quote may be the same asset. *)
Theorem degenerate_query_valued_zero_invalid
    (gas : nat) (pf df base : address) (amount : Z) (quote : address) :
  amount = 0 \/ base = 0 \/ quote = 0 \/ pf = 0
  \/ IPrimitivePriceFeed.isSupportedAsset (primitivePriceFeedAt W pf) quote = false ->
  calcCanonicalAssetValue W (S gas) pf df base amount quote = Ok (0, false)
  /\ calcLiveAssetValue W (S gas) pf df base amount quote = Ok (0, false).
Proof.
  intros H.
  split; apply calcAssetValue_guard; tauto.
Qed.

(** *** The valuation of a derivative *)

Lemma sumValues_cons (r : Z * bool) (results : list (Z * bool)) :
  sumValues (r :: results) = r.1 + sumValues results.
Proof. reflexivity. Qed.

Lemma allValid_cons (r : Z * bool) (results : list (Z * bool)) :
  allValid (r :: results) = r.2 && allValid results.
Proof. reflexivity. Qed.

(** The loop, started at index [i] with running total [v0] and flag [b0],
    succeeds exactly when the remaining underlyings can all be valued and no
    running total overflows; it then adds their values to [v0] and clears the
    flag if one of them is invalid. *)
Lemma derivativeValueFrom_Ok
    (calcAssetValue : address -> Z -> result (Z * bool))
    (derivative : address) (amount : Z) (rates : list Z)
    (todo : list address) :
  forall (i : nat) (v0 : Z) (b0 : bool) (v : Z) (b : bool),
  derivativeValueFrom W calcAssetValue derivative amount rates i todo v0 b0 = Ok (v, b)
  <-> exists results,
        (length todo <= length (drop i rates))%nat
        /\ valuesUnderlyings W calcAssetValue derivative amount
             (zip todo (drop i rates)) results
        /\ (forall k : nat, (0 < k <= length results)%nat ->
              v0 + sumValues (take k results) <= MAX_UINT256)
        /\ v = v0 + sumValues results
        /\ b = b0 && allValid results.
Proof.
  induction todo as [|underlying rest IH]; intros i v0 b0 v b; cbn [derivativeValueFrom].
  - split.
    + intros [= <- <-]. exists []. cbn.
      split; [lia|]. split; [constructor|]. split; [|split].
      * intros k Hk. cbn in Hk. lia.
      * lia.
      * rewrite andb_true_r. reflexivity.
    + intros (results & _ & Hval & _ & -> & ->).
      inversion Hval; subst. cbn. rewrite andb_true_r, Z.add_0_r. reflexivity.
  - destruct (rates !! i) as [rate|] eqn:Hrate.
    + rewrite (drop_S _ _ _ Hrate). cbn [zip zip_with length].
      split.
      * intros H.
        apply bind_Ok in H as (underlyingAmount & Hconv & H).
        apply bind_Ok in H as ([underlyingValue underlyingIsValid] & Hcall & H).
        apply bind_Ok in H as (value' & Hadd & H).
        apply add_Ok in Hadd as [-> Hle].
        apply IH in H as (results & Hlen & Hval & Hfit & -> & ->).
        exists ((underlyingValue, underlyingIsValid) :: results).
        repeat split.
        -- lia.
        -- constructor; [|exact Hval]. exists underlyingAmount. auto.
        -- intros k Hk. destruct k as [|k]; [lia|].
           cbn [take]. rewrite sumValues_cons. cbn [fst].
           destruct k as [|k].
           ++ rewrite take_0. cbn. lia.
           ++ cbn [length] in Hk. specialize (Hfit (S k) ltac:(lia)). lia.
        -- rewrite sumValues_cons. cbn [fst]. lia.
        -- rewrite allValid_cons. cbn [snd].
           destruct underlyingIsValid, b0; reflexivity.
      * intros (results & Hlen & Hval & Hfit & -> & ->).
        inversion Hval as [|p r pairs results' (underlyingAmount & Hconv & Hcall) Hrest];
          subst. cbn [fst snd] in Hconv, Hcall.
        rewrite (bind_Ok_l _ _ _ Hconv), (bind_Ok_l _ _ _ Hcall).
        destruct r as [underlyingValue underlyingIsValid].
        assert (Hadd : SafeMath.add v0 underlyingValue = Ok (v0 + underlyingValue)).
        { apply add_Ok. split; [reflexivity|].
          specialize (Hfit 1%nat ltac:(cbn [length]; lia)).
          cbn [take] in Hfit. rewrite take_0 in Hfit. cbn in Hfit. lia. }
        rewrite (bind_Ok_l _ _ _ Hadd).
        apply IH. exists results'. repeat split.
        -- cbn in Hlen. lia.
        -- exact Hrest.
        -- intros k Hk. specialize (Hfit (S k) ltac:(cbn [length]; lia)).
           cbn [take] in Hfit. rewrite sumValues_cons in Hfit. cbn [fst] in Hfit. lia.
        -- rewrite sumValues_cons. cbn [fst]. lia.
        -- rewrite allValid_cons. cbn [snd].
           destruct underlyingIsValid, b0; reflexivity.
    + apply lookup_ge_None in Hrate. rewrite drop_ge by lia.
      split; [discriminate|].
      intros (results & Hlen & _). cbn in Hlen. lia.
Qed.

(** C8.  A derivative asset (one that passes the entry guard, is unknown to
    the primitive feed and supported by the derivative feed) is valued exactly
    when the feed gives a rate for each underlying, every underlying amount
    converted with its rate can be valued by the recursive call, and the
    running sum fits a uint256.  Its value is then the sum of the underlying
    values and its validity flag is the AND of the underlying flags: false
    when any underlying is invalid, true only when all are valid. *)
Theorem derivative_value_sums_underlyings
    (gas : nat) (pf df derivative : address) (amount : Z) (quote : address)
    (live : bool) (underlyings : list address) (rates : list Z)
    (value : Z) (isValid : bool) :
  pf <> 0 -> derivative <> 0 -> quote <> 0 -> amount <> 0 ->
  IPrimitivePriceFeed.isSupportedAsset (primitivePriceFeedAt W pf) quote = true ->
  IPrimitivePriceFeed.isSupportedAsset (primitivePriceFeedAt W pf) derivative = false ->
  df <> 0 ->
  IDerivativePriceFeed.isSupportedAsset (derivativePriceFeedAt W df) derivative = true ->
  IDerivativePriceFeed.getRatesToUnderlyings (derivativePriceFeedAt W df) derivative
    = (underlyings, rates) ->
  __calcAssetValue W (S gas) pf df derivative amount quote live = Ok (value, isValid)
  <-> exists results,
        (length underlyings <= length rates)%nat
        /\ valuesUnderlyings W
             (fun underlying underlyingAmount =>
                __calcAssetValue W gas pf df underlying underlyingAmount quote live)
             derivative amount (zip underlyings rates) results
        /\ sumsFit results
        /\ value = sumValues results
        /\ isValid = allValid results.
Proof.
  intros Hpf Hbase Hquote Hamount Hq Hprim Hdf Hder Hrates.
  cbn [__calcAssetValue].
  destruct (Z.eqb_spec pf 0); [contradiction|].
  destruct (Z.eqb_spec derivative 0); [contradiction|].
  destruct (Z.eqb_spec quote 0); [contradiction|].
  destruct (Z.eqb_spec amount 0); [contradiction|].
  destruct (Z.eqb_spec df 0); [contradiction|].
  rewrite Hq, Hprim, Hder. cbn [negb orb andb].
  unfold __calcDerivativeValue. rewrite Hrates.
  rewrite derivativeValueFrom_Ok. rewrite drop_0.
  split; intros (results & Hlen & Hval & Hfit & Hv & Hb); exists results;
    repeat split; auto.
  - intros k. destruct (decide (k = 0%nat)) as [->|Hk0].
    { cbn. apply MAX_UINT256_nonneg. }
    destruct (decide (k <= length results)%nat) as [Hk|Hk].
    + specialize (Hfit k ltac:(lia)). lia.
    + rewrite take_ge by lia.
      destruct results as [|r results']; [cbn; apply MAX_UINT256_nonneg|].
      specialize (Hfit (length (r :: results')) ltac:(cbn [length]; lia)).
      rewrite take_ge in Hfit by lia. lia.
  - intros k _. specialize (Hfit k). lia.
Qed.


End InterpreterFacts.

(** Witnesses for the interpreter, on the pool token of the scenario. *)

Lemma unregistered_asset_valued_zero_invalid_witness :
  ValueInterpreter.calcCanonicalAssetValue world 1 primitiveFeed derivativeFeed 300
    (10 ^ 18) weth = Ok (0, false)
  /\ ValueInterpreter.calcLiveAssetValue world 1 primitiveFeed derivativeFeed 300
       (10 ^ 18) weth = Ok (0, false).
Proof.
  apply (unregistered_asset_valued_zero_invalid world 0 primitiveFeed derivativeFeed 300
           (10 ^ 18) weth).
  - reflexivity.
  - right. reflexivity.
Defined.

Lemma degenerate_query_valued_zero_invalid_witness :
  ValueInterpreter.calcLiveAssetValue world 1 primitiveFeed derivativeFeed weth 5 weth
    = Ok (5, true)
  /\ ValueInterpreter.calcCanonicalAssetValue world 1 primitiveFeed derivativeFeed weth 0
       weth = Ok (0, false)
  /\ ValueInterpreter.calcLiveAssetValue world 1 primitiveFeed derivativeFeed weth 0 weth
       = Ok (0, false).
Proof.
  split; [vm_compute; reflexivity|].
  apply (degenerate_query_valued_zero_invalid world 0 primitiveFeed derivativeFeed weth 0
           weth).
  left. reflexivity.
Defined.

Lemma derivative_value_sums_underlyings_witness :
  ValueInterpreter.__calcAssetValue world 2 primitiveFeed derivativeFeed lp (10 ^ 18) weth
    true = Ok (520000000000000000, false)
  /\ exists results,
       (length [weth; dai] <= length [5 * 10 ^ 17; 2 * 10 ^ 18])%nat
       /\ ValueInterpreter.valuesUnderlyings world
            (fun underlying underlyingAmount =>
               ValueInterpreter.__calcAssetValue world 1 primitiveFeed derivativeFeed
                 underlying underlyingAmount weth true)
            lp (10 ^ 18) (zip [weth; dai] [5 * 10 ^ 17; 2 * 10 ^ 18]) results
       /\ ValueInterpreter.sumsFit results
       /\ 520000000000000000 = ValueInterpreter.sumValues results
       /\ false = ValueInterpreter.allValid results.
Proof.
  assert (Hrun : ValueInterpreter.__calcAssetValue world 2 primitiveFeed derivativeFeed lp
                   (10 ^ 18) weth true = Ok (520000000000000000, false))
    by (vm_compute; reflexivity).
  split; [exact Hrun|].
  apply (derivative_value_sums_underlyings world 1 primitiveFeed derivativeFeed lp
           (10 ^ 18) weth true [weth; dai] [5 * 10 ^ 17; 2 * 10 ^ 18]
           520000000000000000 false).
  - unfold primitiveFeed. lia.
  - unfold lp. lia.
  - unfold weth. lia.
  - lia.
  - reflexivity.
  - reflexivity.
  - unfold derivativeFeed. lia.
  - reflexivity.
  - reflexivity.
  - exact Hrun.
Defined.

(** ** Vault: the share ledger *)

Section LedgerFacts.

Import Vault.

Lemma sumBalances_insert (b : gmap Z Z) (holder : Z) (v : Z) :
  sumBalances (<[holder := v]> b) = sumBalances b - default 0 (b !! holder) + v.
Proof.
  unfold sumBalances.
  destruct (b !! holder) as [old|] eqn:Hold; cbn [default from_option id].
  - rewrite <- (insert_delete_eq b).
    rewrite map_fold_insert_L; [|intros; lia|apply lookup_delete_eq].
    rewrite (map_fold_delete_L _ _ holder old b); [lia|intros; lia|exact Hold].
  - rewrite map_fold_insert_L; [lia|intros; lia|exact Hold].
Qed.

Lemma addShares_Ok (recipient : address) (numShares : Z) (s s' : Storage) :
  addShares recipient numShares s = Ok s' ->
  s' = set_balances s (<[recipient := balanceOfHolder s recipient + numShares]> (balances s))
  /\ balanceOfHolder s recipient + numShares <= MAX_UINT256.
Proof.
  unfold addShares. intros H. invert_ok. auto.
Qed.

Lemma subShares_Ok (recipient : address) (numShares : Z) (s s' : Storage) :
  subShares recipient numShares s = Ok s' ->
  s' = set_balances s (<[recipient := balanceOfHolder s recipient - numShares]> (balances s))
  /\ numShares <= balanceOfHolder s recipient.
Proof.
  unfold subShares. intros H. invert_ok. auto.
Qed.

Lemma createShares_Ok (recipient : address) (numShares : Z) (s s' : Storage) :
  createShares recipient numShares s = Ok s' ->
  s' = set_balances (set_totalSupply s (totalSupply s + numShares))
         (<[recipient := balanceOfHolder s recipient + numShares]> (balances s)).
Proof.
  unfold createShares. intros H. invert_ok.
  apply addShares_Ok in H as [-> _]. reflexivity.
Qed.

Lemma annihilateShares_Ok (recipient : address) (numShares : Z) (s s' : Storage) :
  annihilateShares recipient numShares s = Ok s' ->
  s' = set_balances (set_totalSupply s (totalSupply s - numShares))
         (<[recipient := balanceOfHolder s recipient - numShares]> (balances s))
  /\ numShares <= totalSupply s
  /\ numShares <= balanceOfHolder s recipient.
Proof.
  unfold annihilateShares. intros H. invert_ok.
  apply subShares_Ok in H as [-> Hle]. auto.
Qed.

Lemma balanceOfHolder_set (s : Storage) (b : gmap Z Z) (holder : address) (v : Z) :
  balanceOfHolder (set_balances s (<[holder := v]> b)) holder = v.
Proof.
  unfold balanceOfHolder. cbn. rewrite lookup_insert_eq. reflexivity.
Qed.

(** Minting keeps the balances in step with the total supply. *)
Lemma createShares_conserved (recipient : address) (numShares : Z) (s s' : Storage) :
  conserved s -> createShares recipient numShares s = Ok s' -> conserved s'.
Proof.
  unfold conserved. intros Hs H. apply createShares_Ok in H as ->.
  cbn. rewrite sumBalances_insert. unfold balanceOfHolder. lia.
Qed.

(** So does burning. *)
Lemma annihilateShares_conserved (recipient : address) (numShares : Z) (s s' : Storage) :
  conserved s -> annihilateShares recipient numShares s = Ok s' -> conserved s'.
Proof.
  unfold conserved. intros Hs H. apply annihilateShares_Ok in H as (-> & _ & _).
  cbn. rewrite sumBalances_insert. unfold balanceOfHolder. lia.
Qed.

(** [addShares] alone credits the holder and leaves the total supply. *)
Lemma addShares_sum (recipient : address) (numShares : Z) (s s' : Storage) :
  addShares recipient numShares s = Ok s' ->
  sumBalances (balances s') = sumBalances (balances s) + numShares
  /\ totalSupply s' = totalSupply s.
Proof.
  intros H. apply addShares_Ok in H as [-> _].
  cbn. rewrite sumBalances_insert. unfold balanceOfHolder. split; [lia|reflexivity].
Qed.

End LedgerFacts.

(** ** Vault: subscribe, redeem and slices *)

Section ParticipationFacts.

Import Vault.

Context {Ledger : Type} (E : Env Ledger).

Lemma callTransfer_Ok (asset to : address) (amount : Z) (st st' : State Ledger)
    (success : bool) :
  callTransfer E asset to amount st = Ok (success, st') ->
  storage st' = storage st
  /\ trace st' = trace st ++ [CallTransfer asset to amount (storage st)].
Proof.
  unfold callTransfer. intros H.
  apply bind_Ok in H as ([ok l'] & _ & [= _ <-]). cbn. auto.
Qed.

Lemma callTransferFrom_Ok (asset from to : address) (amount : Z) (st st' : State Ledger)
    (success : bool) :
  callTransferFrom E asset from to amount st = Ok (success, st') ->
  storage st' = storage st
  /\ trace st' = trace st ++ [CallTransferFrom asset from to amount (storage st)].
Proof.
  unfold callTransferFrom. intros H.
  apply bind_Ok in H as ([ok l'] & _ & [= _ <-]). cbn. auto.
Qed.

Lemma onStorage_Ok (f : Storage -> result Storage) (st st' : State Ledger) :
  onStorage f st = Ok st' ->
  f (storage st) = Ok (storage st') /\ ledger st' = ledger st /\ trace st' = trace st.
Proof.
  unfold onStorage. intros H. apply bind_Ok in H as (s' & Hf & [= <-]). cbn. auto.
Qed.

(** The loops of the slice operations move tokens only: the vault storage is
    the same before and after. *)
Lemma allocateSliceFrom_storage (numShares : Z)
    (assigned : list (address * PriceFeedProtocol)) :
  forall st st' : State Ledger,
  allocateSliceFrom E numShares assigned st = Ok st' -> storage st' = storage st.
Proof.
  induction assigned as [|[Asset Price] rest IH]; intros st st' H; cbn in H.
  - injection H as <-. reflexivity.
  - destruct (balanceOf (assets E) (ledger st) Asset (this E) =? 0).
    + apply IH. exact H.
    + apply bind_Ok in H as (product & _ & H).
      apply bind_Ok in H as (allocationAmount & _ & H).
      apply bind_Ok in H as (_ & _ & H).
      apply bind_Ok in H as ([success st1] & Hcall & H).
      apply bind_Ok in H as (_ & _ & H).
      apply callTransferFrom_Ok in Hcall as [Hst1 _].
      rewrite (IH _ _ H). exact Hst1.
Qed.

(** Every call made by the loop of [separateSlice] is a transfer to the
    caller, and each is made with the storage the loop was entered with. *)
Lemma separateSliceFrom_Ok (numShares prevTotalSupply : Z)
    (assigned : list (address * PriceFeedProtocol)) :
  forall st st' : State Ledger,
  separateSliceFrom E numShares prevTotalSupply assigned st = Ok st' ->
  storage st' = storage st
  /\ exists events,
       trace st' = trace st ++ events
       /\ Forall
            (fun ev => exists asset amount,
               ev = CallTransfer asset (msg_sender E) amount (storage st))
            events.
Proof.
  induction assigned as [|[Asset Price] rest IH]; intros st st' H; cbn in H.
  - injection H as <-. split; [reflexivity|].
    exists []. rewrite app_nil_r. split; [reflexivity|constructor].
  - destruct (balanceOf (assets E) (ledger st) Asset (this E) =? 0).
    + apply IH. exact H.
    + apply bind_Ok in H as (product & _ & H).
      apply bind_Ok in H as (separationAmount & _ & H).
      apply bind_Ok in H as ([success st1] & Hcall & H).
      apply bind_Ok in H as (_ & _ & H).
      apply callTransfer_Ok in Hcall as [Hst1 Htr1].
      apply IH in H as (Hst' & events & Htr' & Hall).
      split; [congruence|].
      exists (CallTransfer Asset (msg_sender E) separationAmount (storage st) :: events).
      split.
      * rewrite Htr', Htr1, <- app_assoc. reflexivity.
      * constructor; [eauto|]. rewrite <- Hst1. exact Hall.
Qed.

(** What [separateSlice] does when it succeeds: the caller's shares are
    annihilated first, and every transfer that follows is made with the
    storage that results from it. *)
Lemma separateSlice_Ok (numShares : Z) (st st' : State Ledger) :
  separateSlice E numShares st = Ok st' ->
  annihilateShares (msg_sender E) numShares (storage st) = Ok (storage st')
  /\ exists events,
       trace st' = trace st ++ events
       /\ Forall
            (fun ev => exists asset amount,
               ev = CallTransfer asset (msg_sender E) amount (storage st'))
            events.
Proof.
  unfold separateSlice. intros H.
  apply bind_Ok in H as (prevTotalSupply & _ & H).
  apply bind_Ok in H as (_ & _ & H).
  apply bind_Ok in H as (st1 & Hburn & H).
  apply onStorage_Ok in Hburn as (Hburn & _ & Htr1).
  apply separateSliceFrom_Ok in H as (Hst' & events & Htr' & Hall).
  rewrite Hst'. split; [exact Hburn|].
  exists events. rewrite Htr', Htr1. auto.
Qed.

(** Burn before send in the slice path: every transfer made by a successful
    [redeemUsingSlice] sees the caller's balance and the total supply already
    reduced by the redeemed shares. *)
Lemma redeemUsingSlice_transfers_see_burned_shares (numShares : Z)
    (st st' : State Ledger) :
  redeemUsingSlice E numShares st = Ok st' ->
  exists events,
    trace st' = trace st ++ events
    /\ transfersSee
         (fun seen =>
            balanceOfHolder seen (msg_sender E)
              = balanceOfHolder (storage st) (msg_sender E) - numShares
            /\ totalSupply seen = totalSupply (storage st) - numShares)
         events.
Proof.
  unfold redeemUsingSlice. intros H.
  apply bind_Ok in H as (_ & _ & H).
  apply bind_Ok in H as (st1 & Hslice & [= <-]).
  apply separateSlice_Ok in Hslice as (Hburn & events & Htr & Hall).
  apply annihilateShares_Ok in Hburn as (Hst1 & _ & _).
  exists (events ++ [CallLogger (logRedeemed (msg_sender E) (now E) numShares)]).
  split.
  - cbn. rewrite Htr, <- app_assoc. reflexivity.
  - unfold transfersSee. apply Forall_app. split; [|repeat constructor].
    eapply Forall_impl; [exact Hall|].
    intros ev (asset & amount & ->). rewrite Hst1.
    split; [apply balanceOfHolder_set|reflexivity].
Qed.

(** Send before burn in the single-asset path: the one transfer made by a
    successful [redeem] is made with the storage the call started with, the
    shares are annihilated after it. *)
Lemma redeem_Ok (numShares requestedValue : Z) (st st' : State Ledger) :
  redeem E numShares requestedValue st = Ok st' ->
  exists actualValue,
    priceForNumShares E (storage st) (ledger st) numShares = Ok actualValue
    /\ annihilateShares (msg_sender E) numShares (storage st) = Ok (storage st')
    /\ trace st' =
         trace st
         ++ [CallTransfer (referenceAsset (storage st)) (msg_sender E) actualValue
               (storage st);
             CallLogger (logRedeemed (msg_sender E) (now E) numShares)].
Proof.
  unfold redeem. intros H.
  apply bind_Ok in H as (_ & _ & H).
  apply bind_Ok in H as (_ & _ & H).
  apply bind_Ok in H as (actualValue & Hprice & H).
  apply bind_Ok in H as (_ & _ & H).
  apply bind_Ok in H as ([success st1] & Hcall & H).
  apply bind_Ok in H as (_ & _ & H).
  apply bind_Ok in H as (st2 & Hburn & [= <-]).
  apply callTransfer_Ok in Hcall as [Hst1 Htr1].
  apply onStorage_Ok in Hburn as (Hburn & _ & Htr2).
  exists actualValue. split; [exact Hprice|]. split.
  - cbn. rewrite <- Hst1. exact Hburn.
  - cbn. rewrite Htr2, Htr1, <- app_assoc. reflexivity.
Qed.

(** *** Conservation under subscribe and redeem *)

Lemma subscribeUsingSlice_conserved (numShares : Z) (st st' : State Ledger) :
  conserved (storage st) -> subscribeUsingSlice E numShares st = Ok st' ->
  conserved (storage st').
Proof.
  unfold subscribeUsingSlice, allocateSlice. intros Hs H.
  apply bind_Ok in H as (_ & _ & H).
  apply bind_Ok in H as (_ & _ & H).
  apply bind_Ok in H as (st2 & H & [= <-]).
  apply bind_Ok in H as (st1 & Hloop & Hmint).
  apply allocateSliceFrom_storage in Hloop.
  apply onStorage_Ok in Hmint as (Hmint & _ & _).
  cbn. eapply createShares_conserved; [|exact Hmint]. rewrite Hloop. exact Hs.
Qed.

Lemma subscribe_conserved (numShares offeredValue : Z) (st st' : State Ledger) :
  conserved (storage st) -> subscribe E numShares offeredValue st = Ok st' ->
  conserved (storage st').
Proof.
  unfold subscribe. intros Hs H.
  apply bind_Ok in H as (_ & _ & H).
  apply bind_Ok in H as (_ & _ & H).
  destruct (isZero numShares).
  - eapply subscribeUsingSlice_conserved; eassumption.
  - apply bind_Ok in H as (actualValue & _ & H).
    apply bind_Ok in H as (_ & _ & H).
    apply bind_Ok in H as ([success st1] & Hcall & H).
    apply bind_Ok in H as (_ & _ & H).
    apply bind_Ok in H as (st2 & Hmint & [= <-]).
    apply callTransferFrom_Ok in Hcall as [Hst1 _].
    apply onStorage_Ok in Hmint as (Hmint & _ & _).
    cbn. eapply createShares_conserved; [|exact Hmint]. rewrite Hst1. exact Hs.
Qed.

Lemma redeem_conserved (numShares requestedValue : Z) (st st' : State Ledger) :
  conserved (storage st) -> redeem E numShares requestedValue st = Ok st' ->
  conserved (storage st').
Proof.
  intros Hs H. apply redeem_Ok in H as (actualValue & _ & Hburn & _).
  eapply annihilateShares_conserved; eassumption.
Qed.

Lemma redeemUsingSlice_conserved (numShares : Z) (st st' : State Ledger) :
  conserved (storage st) -> redeemUsingSlice E numShares st = Ok st' ->
  conserved (storage st').
Proof.
  unfold redeemUsingSlice. intros Hs H.
  apply bind_Ok in H as (_ & _ & H).
  apply bind_Ok in H as (st1 & Hslice & [= <-]).
  apply separateSlice_Ok in Hslice as (Hburn & _).
  cbn. eapply annihilateShares_conserved; eassumption.
Qed.

End ParticipationFacts.

(** ** Vault: share price and rewards *)

Section AccountingFacts.

Import Vault.

Context {Ledger : Type} (E : Env Ledger).

Lemma calcValuePerShare_Ok (s : Storage) (value r : Z) :
  calcValuePerShare s value = Ok r
  <-> 0 < totalSupply s
      /\ value * baseUnitsPerShare s <= MAX_UINT256
      /\ r = value * baseUnitsPerShare s / totalSupply s.
Proof.
  unfold calcValuePerShare, isPastZero. split.
  - intros H. invert_ok. apply Z.ltb_lt in Hx. auto.
  - intros (Hpos & Hfit & ->).
    apply Z.ltb_lt in Hpos as Hpos'. rewrite Hpos'. cbn.
    rewrite (bind_Ok_l _ _ (value * baseUnitsPerShare s));
      [|apply mul_Ok; auto].
    apply div_Ok. split; [reflexivity|lia].
Qed.

Lemma calcValuePerShare_zero_supply (s : Storage) (value : Z) :
  totalSupply s = 0 -> calcValuePerShare s value = Revert.
Proof. unfold calcValuePerShare. intros ->. reflexivity. Qed.

Lemma calcGavFrom_bound (s : Storage) (l : Ledger)
    (assigned : list (address * PriceFeedProtocol)) :
  forall gav0 gav : Z,
  calcGavFrom E s l assigned gav0 = Ok gav -> gav0 <= MAX_UINT256 -> gav <= MAX_UINT256.
Proof.
  induction assigned as [|[ofAsset Price] rest IH]; intros gav0 gav H Hle; cbn in H.
  - injection H as <-. exact Hle.
  - apply bind_Ok in H as (_ & _ & H).
    apply bind_Ok in H as (product & _ & H).
    apply bind_Ok in H as (value & _ & H).
    apply bind_Ok in H as (gav' & Hadd & H).
    apply add_Ok in Hadd as [-> Hfit].
    eapply IH; eassumption.
Qed.

Lemma calcGav_bound (s : Storage) (l : Ledger) (gav : Z) :
  calcGav E s l = Ok gav -> gav <= MAX_UINT256.
Proof.
  intros H. eapply calcGavFrom_bound; [exact H|apply MAX_UINT256_nonneg].
Qed.

(** The price difference handed to the rewards module does not wrap. *)
Lemma raw_sub_exact (a b : Z) :
  0 <= b -> b < a -> a <= MAX_UINT256 -> raw_sub a b = a - b.
Proof.
  intros Hb Hlt Ha. unfold raw_sub, wrap.
  apply Z.mod_small. unfold MAX_UINT256 in Ha. lia.
Qed.

(** The three outputs of [calcUnclaimedRewards], read off the code. *)
Lemma calcUnclaimedRewards_Ok (s : Storage) (gav m p u : Z) :
  calcUnclaimedRewards E s gav = Ok (m, p, u) ->
  calculateManagementReward (rewards E) (now E - timestamp (atLastPayout s)) gav = Ok m
  /\ u = m + p
  /\ (totalSupply s = 0 /\ p = 0
      \/ 0 < totalSupply s
         /\ gav * baseUnitsPerShare s <= MAX_UINT256
         /\ let currSharePrice := gav * baseUnitsPerShare s / totalSupply s in
            if currSharePrice >? sharePrice (atLastPayout s) then
              calculatePerformanceReward (rewards E)
                (raw_sub currSharePrice (sharePrice (atLastPayout s))) (totalSupply s)
                = Ok p
            else p = 0).
Proof.
  unfold calcUnclaimedRewards. intros H.
  apply bind_Ok in H as (timeDifference & Htime & H).
  apply sub_Ok in Htime as [-> _].
  apply bind_Ok in H as (m' & Hm & H).
  apply bind_Ok in H as (p' & Hp & H).
  apply bind_Ok in H as (u' & Hu & [= <- <- <-]).
  apply add_Ok in Hu as [-> _].
  split; [exact Hm|]. split; [reflexivity|].
  destruct (Z.eqb_spec (totalSupply s) 0) as [Hzero|Hnz]; cbn [negb] in Hp.
  - left. injection Hp as <-. auto.
  - right. apply bind_Ok in Hp as (currSharePrice & Hcurr & Hp).
    apply calcValuePerShare_Ok in Hcurr as (Hpos & Hfit & ->).
    split; [exact Hpos|]. split; [exact Hfit|]. cbn zeta.
    destruct (_ >? _); [exact Hp|]. injection Hp as <-. reflexivity.
Qed.

Lemma performCalculations_Ok (s : Storage) (l : Ledger) (gav m p u nav price : Z) :
  performCalculations E s l = Ok (gav, m, p, u, nav, price) ->
  calcGav E s l = Ok gav
  /\ calcUnclaimedRewards E s gav = Ok (m, p, u)
  /\ calcNav gav u = Ok nav
  /\ (if isPastZero (totalSupply s) then calcValuePerShare s nav
      else Ok (baseUnitsPerShare s)) = Ok price.
Proof.
  unfold performCalculations. intros H.
  apply bind_Ok in H as (gav' & Hgav & H).
  apply bind_Ok in H as ([[m' p'] u'] & Hrew & H).
  apply bind_Ok in H as (nav' & Hnav & H).
  apply bind_Ok in H as (price' & Hprice & [= <- <- <- <- <- <-]).
  auto.
Qed.

(** C3 (amended).  calcUnclaimedRewards returns performanceReward = 0 unless
    totalSupply > 0 and the share price implied by gav itself, gav *
    baseUnitsPerShare / totalSupply with no management reward deducted,
    exceeds the share price recorded at the last payout.  When it exceeds,
    the performance reward is what the rewards module computes from the price
    difference and the total supply; for a proportional rewards module that
    is (currentSharePrice - highWaterMark) * totalSupply, scaled by rate over
    divisor. *)
Theorem performance_reward_above_high_water_mark (s : Storage) (gav m p u : Z) :
  0 <= sharePrice (atLastPayout s) ->
  calcUnclaimedRewards E s gav = Ok (m, p, u) ->
  let currSharePrice := gav * baseUnitsPerShare s / totalSupply s in
  (~ (0 < totalSupply s /\ currSharePrice > sharePrice (atLastPayout s)) -> p = 0)
  /\ (0 < totalSupply s -> currSharePrice > sharePrice (atLastPayout s) ->
      calculatePerformanceReward (rewards E)
        (currSharePrice - sharePrice (atLastPayout s)) (totalSupply s) = Ok p
      /\ forall managementRate performanceRate divisor,
           rewards E = proportionalRewards managementRate performanceRate divisor ->
           p = (currSharePrice - sharePrice (atLastPayout s)) * totalSupply s
                 * performanceRate / divisor).
Proof.
  intros Hmark H currSharePrice.
  apply calcUnclaimedRewards_Ok in H as (_ & _ & [[Hzero ->] | (Hpos & Hfit & Hp)]).
  - split; [reflexivity|]. intros Hpos. lia.
  - cbn zeta in Hp. fold currSharePrice in Hp.
    destruct (Z.gtb_spec currSharePrice (sharePrice (atLastPayout s))) as [Hgt|Hle].
    + assert (Hcurr : currSharePrice <= MAX_UINT256).
      { subst currSharePrice.
        transitivity (gav * baseUnitsPerShare s); [|exact Hfit].
        apply Z.div_le_upper_bound; [exact Hpos|].
        assert (0 <= gav * baseUnitsPerShare s); [|nia].
        destruct (Z.le_gt_cases 0 (gav * baseUnitsPerShare s)) as [?|Hneg]; [assumption|].
        assert (gav * baseUnitsPerShare s / totalSupply s < 0)
          by (apply Z.div_lt_upper_bound; lia).
        lia. }
      rewrite raw_sub_exact in Hp by lia.
      split; [intros Hnot; exfalso; apply Hnot; split; lia|].
      intros _ _. split; [exact Hp|].
      intros managementRate performanceRate divisor Hrewards.
      rewrite Hrewards in Hp. cbn in Hp. invert_ok. reflexivity.
    + subst p. split; [reflexivity|]. intros _ Hgt. lia.
Qed.


(** A fund without shares is priced whenever its assets can be valued and
    the management reward does not exceed their value. *)
Lemma performCalculations_zero_supply_returns (s : Storage) (l : Ledger) (gav m : Z) :
  totalSupply s = 0 ->
  calcGav E s l = Ok gav ->
  timestamp (atLastPayout s) <= now E ->
  calculateManagementReward (rewards E) (now E - timestamp (atLastPayout s)) gav = Ok m ->
  m <= gav ->
  performCalculations E s l = Ok (gav, m, 0, m, gav - m, baseUnitsPerShare s).
Proof.
  intros Hzero Hgav Htime Hm Hle.
  pose proof (calcGav_bound s l gav Hgav) as Hbound.
  unfold performCalculations, calcUnclaimedRewards, calcNav, isPastZero.
  rewrite Hzero, Hgav. cbn [negb Z.eqb Z.ltb Z.compare mbind result_bind].
  rewrite (bind_Ok_l _ _ (now E - timestamp (atLastPayout s)))
    by (apply sub_Ok; auto).
  rewrite Hm. cbn [mbind result_bind].
  rewrite (bind_Ok_l _ _ (m + 0)) by (apply add_Ok; split; [reflexivity|lia]).
  cbn [mbind result_bind].
  rewrite (bind_Ok_l _ _ (gav - (m + 0))) by (apply sub_Ok; split; [reflexivity|lia]).
  rewrite Z.add_0_r. reflexivity.
Qed.

(** C6.  With totalSupply = 0 the share price is baseUnitsPerShare, and
    performCalculations is the computation on the right, in which nothing is
    divided by totalSupply: calcValuePerShare, which aborts on a zero supply,
    is not called.  Whenever calcValuePerShare returns, the supply it divided
    by was positive. *)
Theorem zero_supply_share_price_is_base_unit (s : Storage) (l : Ledger) :
  totalSupply s = 0 ->
  performCalculations E s l
    = (gav ← calcGav E s l;
       timeDifference ← SafeMath.sub (now E) (timestamp (atLastPayout s));
       m ← calculateManagementReward (rewards E) timeDifference gav;
       u ← SafeMath.add m 0;
       nav ← SafeMath.sub gav u;
       Ok (gav, m, 0, u, nav, baseUnitsPerShare s))
  /\ (forall gav m p u nav price,
        performCalculations E s l = Ok (gav, m, p, u, nav, price) ->
        price = baseUnitsPerShare s)
  /\ (forall value, calcValuePerShare s value = Revert)
  /\ (forall (s' : Storage) value r,
        calcValuePerShare s' value = Ok r ->
        0 < totalSupply s' /\ r = value * baseUnitsPerShare s' / totalSupply s').
Proof.
  intros Hzero. split; [|split; [|split]].
  - unfold performCalculations, calcUnclaimedRewards, calcNav, isPastZero.
    rewrite Hzero. cbn [negb Z.eqb Z.ltb Z.compare].
    destruct (calcGav E s l) as [gav| |]; cbn; try reflexivity.
    destruct (SafeMath.sub (now E) _) as [timeDifference| |]; cbn; try reflexivity.
    destruct (calculateManagementReward _ _ _) as [m| |]; cbn; try reflexivity.
    destruct (SafeMath.add m 0) as [u| |]; cbn; reflexivity.
  - intros gav m p u nav price H.
    apply performCalculations_Ok in H as (_ & _ & _ & H).
    unfold isPastZero in H. rewrite Hzero in H. cbn in H. congruence.
  - intros value. apply calcValuePerShare_zero_supply. exact Hzero.
  - intros s' value r H. apply calcValuePerShare_Ok in H. tauto.
Qed.

(** C9 (amended).  The total returned by calcUnclaimedRewards is
    managementReward + performanceReward, where the management reward is what
    the rewards module computes from the time since the last payout and gav,
    and the performance reward is what it computes above the recorded share
    price, or zero.  calcUnclaimedRewards itself neither clamps the total nor
    checks it against gav.  The total is checked where it is used:
    performCalculations hands it to calcNav, whose checked subtraction aborts
    when the total exceeds gav.  So with a total of at most gav,
    performCalculations goes on to the share price with nav = gav less the
    total; with a total above gav it aborts, and with it every price, every
    subscription, every redemption by value and the conversion of rewards. *)
Theorem unclaimed_rewards_checked_where_used (s : Storage) (gav m p u : Z) :
  calcUnclaimedRewards E s gav = Ok (m, p, u) ->
  calculateManagementReward (rewards E) (now E - timestamp (atLastPayout s)) gav = Ok m
  /\ (totalSupply s = 0 /\ p = 0
      \/ 0 < totalSupply s
         /\ let currSharePrice := gav * baseUnitsPerShare s / totalSupply s in
            if currSharePrice >? sharePrice (atLastPayout s) then
              calculatePerformanceReward (rewards E)
                (raw_sub currSharePrice (sharePrice (atLastPayout s))) (totalSupply s)
                = Ok p
            else p = 0)
  /\ u = m + p
  /\ forall l : Ledger,
       calcGav E s l = Ok gav ->
       (u <= gav ->
        performCalculations E s l
          = (price ← (if isPastZero (totalSupply s) then calcValuePerShare s (gav - u)
                      else Ok (baseUnitsPerShare s));
             Ok (gav, m, p, u, gav - u, price)))
       /\ (gav < u ->
           performCalculations E s l = Revert
           /\ (forall numShares,
                 priceForNumShares E s l numShares = Revert
                 /\ subscribePriceForNumShares E s l numShares = Revert)
           /\ (forall numShares value events,
                 subscribe E numShares value (mkState s l events) = Revert
                 /\ redeem E numShares value (mkState s l events) = Revert)
           /\ (forall events, convertUnclaimedRewards E (mkState s l events) = Revert)).
Proof.
  intros H.
  pose proof (calcUnclaimedRewards_Ok s gav m p u H) as (Hm & Hu & Hp).
  split; [exact Hm|]. split; [tauto|]. split; [exact Hu|].
  intros l Hgav.
  assert (Hcalc : performCalculations E s l
            = (nav ← calcNav gav u;
               price ← (if isPastZero (totalSupply s) then calcValuePerShare s nav
                        else Ok (baseUnitsPerShare s));
               Ok (gav, m, p, u, nav, price))).
  { unfold performCalculations. rewrite Hgav. cbn [mbind result_bind].
    rewrite H. reflexivity. }
  split.
  - intros Hle. rewrite Hcalc. unfold calcNav.
    rewrite (bind_Ok_l _ _ (gav - u)) by (apply sub_Ok; auto). reflexivity.
  - intros Hlt.
    assert (Hrevert : performCalculations E s l = Revert).
    { rewrite Hcalc. unfold calcNav, SafeMath.sub.
      destruct (Z.leb_spec u gav); [lia|reflexivity]. }
    assert (Hprice : forall numShares, priceForNumShares E s l numShares = Revert).
    { intros numShares. unfold priceForNumShares. rewrite Hrevert. reflexivity. }
    assert (Hsubscribe : forall numShares,
              subscribePriceForNumShares E s l numShares = Revert).
    { intros numShares. unfold subscribePriceForNumShares. rewrite Hprice. reflexivity. }
    split; [exact Hrevert|]. split; [auto|]. split.
    + intros numShares value events. split.
      * unfold subscribe, subscribeUsingSlice, DBC.pre_cond, require.
        cbn [storage ledger].
        destruct (isSubscriberPermitted _ _ _); [|reflexivity].
        destruct (isSubscribePermitted _ _ _); [|reflexivity].
        cbn [mbind result_bind]. unfold isZero.
        destruct (Z.eqb_spec 0 numShares) as [<-|_].
        -- destruct (isPastZero (totalSupply s)); reflexivity.
        -- rewrite Hsubscribe. reflexivity.
      * unfold redeem, DBC.pre_cond, require. cbn [storage ledger].
        destruct (isPastZero numShares); [|reflexivity].
        destruct (isRedeemPermitted _ _ _); [|reflexivity].
        cbn [mbind result_bind]. rewrite Hprice. reflexivity.
    + intros events. unfold convertUnclaimedRewards, DBC.pre_cond, require.
      cbn [storage ledger].
      destruct (isOwner E s); [|reflexivity].
      cbn [mbind result_bind]. rewrite Hrevert. reflexivity.
Qed.

End AccountingFacts.

(** ** Vault: conversion of unclaimed rewards *)

Section RewardsFacts.

Import Vault.

Context {Ledger : Type} (E : Env Ledger).

(** What a successful [convertUnclaimedRewards] does: the owner is credited
    floor(totalSupply * unclaimedRewards / gav) shares through [addShares],
    the total supply is left as it was, and the record of the last payout is
    replaced by the figures just computed. *)
Lemma convertUnclaimedRewards_Ok (st st' : State Ledger) :
  convertUnclaimedRewards E st = Ok st' ->
  exists gav m p u nav price,
    performCalculations E (storage st) (ledger st) = Ok (gav, m, p, u, nav, price)
    /\ 0 < gav
    /\ let numShares := totalSupply (storage st) * u / gav in
       balanceOfHolder (storage st') (owner (storage st))
         = balanceOfHolder (storage st) (owner (storage st)) + numShares
       /\ sumBalances (balances (storage st'))
            = sumBalances (balances (storage st)) + numShares
       /\ totalSupply (storage st') = totalSupply (storage st)
       /\ atLastPayout (storage st')
            = mkCalculations gav m p u nav price (totalSupply (storage st)) (now E).
Proof.
  unfold convertUnclaimedRewards. intros H.
  apply bind_Ok in H as (_ & _ & H).
  apply bind_Ok in H as ([[[[[gav m] p] u] nav] price] & Hcalc & H).
  apply bind_Ok in H as (? & Hgav & H).
  apply assert_Ok in Hgav. unfold isPastZero in Hgav. apply Z.ltb_lt in Hgav.
  apply bind_Ok in H as (product & Hproduct & H).
  apply mul_Ok in Hproduct as [-> _].
  apply bind_Ok in H as (numShares & HnumShares & H).
  apply div_Ok in HnumShares as [-> _].
  apply bind_Ok in H as (st1 & Hadd & [= <-]).
  apply onStorage_Ok in Hadd as (Hadd & _ & _).
  pose proof (addShares_sum _ _ _ _ Hadd) as [Hsum Hsupply].
  apply addShares_Ok in Hadd as [Hst1 _].
  exists gav, m, p, u, nav, price.
  split; [exact Hcalc|]. split; [exact Hgav|].
  cbn. rewrite Hsum, Hsupply, Hst1. cbn.
  unfold balanceOfHolder at 1. cbn. rewrite lookup_insert_eq. cbn.
  auto.
Qed.

(** Rewards converted into a positive number of shares leave the balances
    adding up to more than the total supply. *)
Lemma convertUnclaimedRewards_not_conserved (st st' : State Ledger) :
  conserved (storage st) ->
  convertUnclaimedRewards E st = Ok st' ->
  sumBalances (balances (storage st')) - totalSupply (storage st')
    = totalSupply (storage st) * unclaimedRewards (atLastPayout (storage st'))
        / gav (atLastPayout (storage st')).
Proof.
  unfold conserved. intros Hs H.
  apply convertUnclaimedRewards_Ok in H
    as (gav & m & p & u & nav & price & _ & _ & _ & Hsum & Hsupply & Hsnap).
  rewrite Hsum, Hsupply, Hsnap. cbn. lia.
Qed.

End RewardsFacts.

(** ** The scenario fund *)

Section ScenarioFacts.

Import Vault.

(** C1.  The single-asset redeem sends before it burns.  The investor
    redeems 100 of 1000 shares: the reference asset is transferred while the
    vault storage is the one the call started with, balance 1000 included;
    the balance is 900 only once the call is over. *)
Theorem redeem_transfers_before_burning :
  exists st',
    redeem (fundEnv investor) 100 0 fundState = Ok st'
    /\ trace st' =
         [CallTransfer weth investor 80 fundStorage;
          CallLogger (logRedeemed investor 100 100)]
    /\ balanceOfHolder fundStorage investor = 1000
    /\ balanceOfHolder (storage st') investor = 900.
Proof.
  eexists. split; [vm_compute; reflexivity|].
  repeat split; vm_compute; reflexivity.
Qed.

(** C2.  Conversion of rewards breaks conservation.  The fund starts with
    balances adding up to the total supply 1000; the manager converts the
    unclaimed rewards; the balances then add up to 1190 while the total supply
    is still 1000. *)
Theorem convertUnclaimedRewards_breaks_conservation :
  conserved fundStorage
  /\ exists st',
       convertUnclaimedRewards (fundEnv manager) fundState = Ok st'
       /\ sumBalances (balances (storage st')) = 1190
       /\ totalSupply (storage st') = 1000
       /\ ~ conserved (storage st').
Proof.
  split; [vm_compute; reflexivity|].
  eexists. split; [vm_compute; reflexivity|].
  split; [vm_compute; reflexivity|].
  split; [vm_compute; reflexivity|].
  vm_compute. discriminate.
Qed.

(** C4.  Conversion of rewards credits the manager without minting.  With
    gav 1100, unclaimed rewards 210 and total supply 1000 the manager's
    balance grows by floor(1000 * 210 / 1100) = 190 and the record of the last
    payout is replaced as a whole, but the total supply stays 1000. *)
Theorem convertUnclaimedRewards_credits_without_minting :
  exists st',
    convertUnclaimedRewards (fundEnv manager) fundState = Ok st'
    /\ performCalculations (fundEnv manager) fundStorage fundLedger
         = Ok (1100, 110, 100, 210, 890, 8)
    /\ balanceOfHolder (storage st') manager
         = balanceOfHolder fundStorage manager + 1000 * 210 / 1100
    /\ totalSupply (storage st') = totalSupply fundStorage
    /\ atLastPayout (storage st') = mkCalculations 1100 110 100 210 890 8 1000 100.
Proof.
  eexists. split; [vm_compute; reflexivity|].
  repeat split; vm_compute; reflexivity.
Qed.

(** C3, as stated, fails.  With gav 1100 the management reward is 110; the
    share price implied by gav less the management reward is 990 * 10 / 1000
    = 9, which does not exceed the recorded share price 10; the performance
    reward is 100 all the same, because the price implied by gav itself is
    11. *)
Lemma performance_reward_despite_net_price_below_mark :
  ~ (forall m p u,
       calcUnclaimedRewards (fundEnv investor) fundStorage 1100 = Ok (m, p, u) ->
       p <> 0 ->
       0 < totalSupply fundStorage
       /\ (1100 - m) * baseUnitsPerShare fundStorage / totalSupply fundStorage
            > sharePrice (atLastPayout fundStorage)).
Proof.
  intros Hclaim.
  assert (Hrun : calcUnclaimedRewards (fundEnv investor) fundStorage 1100
                   = Ok (110, 100, 210)) by (vm_compute; reflexivity).
  assert (Hpaid : 100 <> 0) by discriminate.
  destruct (Hclaim 110 100 210 Hrun Hpaid) as [_ Hgt].
  vm_compute in Hgt. discriminate Hgt.
Qed.

Lemma performance_reward_above_high_water_mark_witness :
  (~ (0 < totalSupply fundStorage
      /\ 1100 * baseUnitsPerShare fundStorage / totalSupply fundStorage
           > sharePrice (atLastPayout fundStorage)) -> 100 = 0)
  /\ (0 < totalSupply fundStorage ->
      1100 * baseUnitsPerShare fundStorage / totalSupply fundStorage
        > sharePrice (atLastPayout fundStorage) ->
      calculatePerformanceReward (rewards (fundEnv investor))
        (1100 * baseUnitsPerShare fundStorage / totalSupply fundStorage
           - sharePrice (atLastPayout fundStorage)) (totalSupply fundStorage) = Ok 100
      /\ forall managementRate performanceRate divisor,
           rewards (fundEnv investor)
             = proportionalRewards managementRate performanceRate divisor ->
           100 = (1100 * baseUnitsPerShare fundStorage / totalSupply fundStorage
                    - sharePrice (atLastPayout fundStorage))
                   * totalSupply fundStorage * performanceRate / divisor).
Proof.
  apply (performance_reward_above_high_water_mark (fundEnv investor) fundStorage
           1100 110 100 210).
  - vm_compute. discriminate.
  - vm_compute. reflexivity.
Defined.



Lemma zero_supply_share_price_is_base_unit_witness :
  performCalculations (fundEnv investor) emptyFundStorage ∅ = Ok (0, 0, 0, 0, 0, 10)
  /\ forall value, calcValuePerShare emptyFundStorage value = Revert.
Proof.
  pose proof (zero_supply_share_price_is_base_unit (fundEnv investor) emptyFundStorage ∅
                eq_refl) as (Hrun & _ & Hrevert & _).
  split; [|exact Hrevert].
  rewrite Hrun. vm_compute. reflexivity.
Defined.

(** C9, as stated, fails.  At time 2000 the management reward on gav 1100
    is 2000 * 1100 / 1000 = 2200 and the performance reward 100:
    calcUnclaimedRewards returns the total 2300, more than twice gav, with no
    clamp and no assertion. *)
Lemma unclaimed_rewards_returned_above_gav :
  ~ (forall m p u,
       calcUnclaimedRewards lateEnv fundStorage 1100 = Ok (m, p, u) ->
       u = m + p /\ u <= 1100).
Proof.
  intros Hclaim.
  assert (Hrun : calcUnclaimedRewards lateEnv fundStorage 1100 = Ok (2200, 100, 2300))
    by (vm_compute; reflexivity).
  destruct (Hclaim 2200 100 2300 Hrun) as [_ Hle].
  vm_compute in Hle. apply Hle. reflexivity.
Qed.

Lemma unclaimed_rewards_checked_where_used_witness :
  (calculateManagementReward (rewards (fundEnv investor))
     (now (fundEnv investor) - timestamp (atLastPayout fundStorage)) 1100 = Ok 110
   /\ 210 = 110 + 100
   /\ performCalculations (fundEnv investor) fundStorage fundLedger
        = Ok (1100, 110, 100, 210, 890, 8))
  /\ (calculateManagementReward (rewards lateEnv)
        (now lateEnv - timestamp (atLastPayout fundStorage)) 1100 = Ok 2200
      /\ 2300 = 2200 + 100
      /\ performCalculations lateEnv fundStorage fundLedger = Revert
      /\ convertUnclaimedRewards lateEnv fundState = Revert).
Proof.
  split.
  - destruct (unclaimed_rewards_checked_where_used (fundEnv investor) fundStorage
                1100 110 100 210) as (Hm & _ & Hu & Huse).
    { vm_compute. reflexivity. }
    split; [exact Hm|]. split; [exact Hu|].
    destruct (Huse fundLedger) as [Hle _]; [vm_compute; reflexivity|].
    rewrite Hle; [vm_compute; reflexivity|vm_compute; discriminate].
  - destruct (unclaimed_rewards_checked_where_used lateEnv fundStorage
                1100 2200 100 2300) as (Hm & _ & Hu & Huse).
    { vm_compute. reflexivity. }
    split; [exact Hm|]. split; [exact Hu|].
    destruct (Huse fundLedger) as [_ Hlt]; [vm_compute; reflexivity|].
    destruct Hlt as (Hrevert & _ & _ & Hconvert); [vm_compute; reflexivity|].
    split; [exact Hrevert|]. apply (Hconvert []).
Defined.

End ScenarioFacts.

(** ** Vault: more on subscribe, redeem and slices *)

Section ParticipationEdges.

Import Vault.

Context {Ledger : Type} (E : Env Ledger).

(** X1.  A subscription for zero shares always aborts: [subscribe] hands it
    to [subscribeUsingSlice], whose precondition asks for a positive number
    of shares. *)
Theorem subscribe_zero_shares_reverts (offeredValue : Z) (st : State Ledger) :
  subscribe E 0 offeredValue st = Revert.
Proof.
  unfold subscribe, subscribeUsingSlice, DBC.pre_cond, require.
  destruct (isSubscriberPermitted _ _ _); [|reflexivity].
  destruct (isSubscribePermitted _ _ _); [|reflexivity].
  cbn. destruct (isPastZero (totalSupply (storage st))); reflexivity.
Qed.

(** X2.  Subscribe, redeem and the two slice operations keep the balances
    adding up to the total supply. *)
Theorem participation_conserves_shares (numShares value : Z) (st st' : State Ledger) :
  conserved (storage st) ->
  subscribe E numShares value st = Ok st'
  \/ subscribeUsingSlice E numShares st = Ok st'
  \/ redeem E numShares value st = Ok st'
  \/ redeemUsingSlice E numShares st = Ok st' ->
  conserved (storage st').
Proof.
  intros Hs [H|[H|[H|H]]].
  - eapply subscribe_conserved; eassumption.
  - eapply subscribeUsingSlice_conserved; eassumption.
  - eapply redeem_conserved; eassumption.
  - eapply redeemUsingSlice_conserved; eassumption.
Qed.

(** A subscription that succeeds is for a number of shares other than
    zero, and has found its price. *)
Lemma subscribe_Ok_inv (numShares offeredValue : Z) (st st' : State Ledger) :
  subscribe E numShares offeredValue st = Ok st' ->
  exists actualValue (st1 : State Ledger),
    subscribePriceForNumShares E (storage st) (ledger st) numShares = Ok actualValue
    /\ actualValue <= offeredValue
    /\ storage st1 = storage st
    /\ trace st1 =
         trace st
         ++ [CallTransferFrom (referenceAsset (storage st)) (msg_sender E) (this E)
               actualValue (storage st)]
    /\ createShares (msg_sender E) numShares (storage st) = Ok (storage st')
    /\ trace st' =
         trace st1 ++ [CallLogger (logSubscribed (msg_sender E) (now E) numShares)].
Proof.
  intros H. unfold subscribe in H.
  apply bind_Ok in H as (? & _ & H).
  apply bind_Ok in H as (? & _ & H).
  unfold isZero in H. destruct (Z.eqb_spec 0 numShares) as [<-|_].
  { unfold subscribeUsingSlice in H.
    apply bind_Ok in H as (? & _ & H).
    apply bind_Ok in H as (? & Hpos & _).
    apply pre_cond_Ok in Hpos. discriminate Hpos. }
  apply bind_Ok in H as (actualValue & Hprice & H).
  apply bind_Ok in H as (? & Hoffer & H).
  apply assert_Ok in Hoffer. apply Z.geb_le in Hoffer.
  apply bind_Ok in H as ([success st1] & Hcall & H).
  apply bind_Ok in H as (? & _ & H).
  apply bind_Ok in H as (st2 & Hmint & [= <-]).
  apply callTransferFrom_Ok in Hcall as [Hst1 Htr1].
  apply onStorage_Ok in Hmint as (Hmint & _ & Htr2).
  rewrite Hst1 in Hmint.
  exists actualValue, st1. cbn. rewrite Htr2. auto 10.
Qed.

Lemma tokenTransfers_app (events events' : list Event) :
  tokenTransfers (events ++ events') = tokenTransfers events ++ tokenTransfers events'.
Proof. apply List.filter_app. Qed.

(** X3.  A successful subscription moves tokens once: the one transfer it
    makes is that of the subscription price, which is at most the offered
    value, from the investor to the vault, and it is made while no share has
    been created yet.  After the call the investor's balance and the total
    supply are both up by the shares subscribed. *)
Theorem subscribe_mints_after_transfer (numShares offeredValue : Z)
    (st st' : State Ledger) :
  subscribe E numShares offeredValue st = Ok st' ->
  exists actualValue,
    subscribePriceForNumShares E (storage st) (ledger st) numShares = Ok actualValue
    /\ actualValue <= offeredValue
    /\ tokenTransfers (trace st') =
         tokenTransfers (trace st)
         ++ [CallTransferFrom (referenceAsset (storage st)) (msg_sender E) (this E)
               actualValue (storage st)]
    /\ balanceOfHolder (storage st') (msg_sender E)
         = balanceOfHolder (storage st) (msg_sender E) + numShares
    /\ totalSupply (storage st') = totalSupply (storage st) + numShares.
Proof.
  intros H.
  apply subscribe_Ok_inv in H
    as (actualValue & st1 & Hprice & Hoffer & _ & Htr1 & Hmint & Htr').
  apply createShares_Ok in Hmint.
  exists actualValue. split; [exact Hprice|]. split; [exact Hoffer|].
  rewrite Htr', Htr1, Hmint, !tokenTransfers_app. cbn. rewrite app_nil_r.
  split; [reflexivity|]. split; [apply balanceOfHolder_set|reflexivity].
Qed.

(** X4.  Shares are redeemed only if held.  A successful [redeem] or
    [redeemUsingSlice] of [numShares] finds at least that many shares on the
    caller's balance and in the total supply, and takes exactly that many off
    both; [redeem] moreover needs a positive number of shares and pays at
    least the requested value. *)
Theorem redeem_burns_held_shares (numShares requestedValue : Z)
    (st st' : State Ledger) :
  redeem E numShares requestedValue st = Ok st'
  \/ redeemUsingSlice E numShares st = Ok st' ->
  numShares <= balanceOfHolder (storage st) (msg_sender E)
  /\ numShares <= totalSupply (storage st)
  /\ balanceOfHolder (storage st') (msg_sender E)
       = balanceOfHolder (storage st) (msg_sender E) - numShares
  /\ totalSupply (storage st') = totalSupply (storage st) - numShares
  /\ (redeem E numShares requestedValue st = Ok st' ->
      0 < numShares
      /\ exists actualValue,
           priceForNumShares E (storage st) (ledger st) numShares = Ok actualValue
           /\ requestedValue <= actualValue).
Proof.
  assert (Hburn : forall s s',
             annihilateShares (msg_sender E) numShares s = Ok s' ->
             numShares <= balanceOfHolder s (msg_sender E)
             /\ numShares <= totalSupply s
             /\ balanceOfHolder s' (msg_sender E)
                  = balanceOfHolder s (msg_sender E) - numShares
             /\ totalSupply s' = totalSupply s - numShares).
  { intros s s' H. apply annihilateShares_Ok in H as (-> & Hsupply & Hbalance).
    split; [exact Hbalance|]. split; [exact Hsupply|].
    split; [apply balanceOfHolder_set|reflexivity]. }
  assert (Hredeem : redeem E numShares requestedValue st = Ok st' ->
            0 < numShares
            /\ exists actualValue,
                 priceForNumShares E (storage st) (ledger st) numShares = Ok actualValue
                 /\ requestedValue <= actualValue).
  { unfold redeem. intros H.
    apply bind_Ok in H as (? & Hpos & H).
    apply pre_cond_Ok in Hpos. unfold isPastZero in Hpos. apply Z.ltb_lt in Hpos.
    apply bind_Ok in H as (? & _ & H).
    apply bind_Ok in H as (actualValue & Hprice & H).
    apply bind_Ok in H as (? & Hreq & _).
    apply assert_Ok in Hreq. apply Z.leb_le in Hreq.
    split; [exact Hpos|]. exists actualValue. auto. }
  intros H.
  assert (Hann : annihilateShares (msg_sender E) numShares (storage st)
                   = Ok (storage st')).
  { destruct H as [H|H].
    - apply redeem_Ok in H as (actualValue & _ & H & _). exact H.
    - unfold redeemUsingSlice in H.
      apply bind_Ok in H as (? & _ & H).
      apply bind_Ok in H as (st1 & Hslice & [= <-]).
      apply separateSlice_Ok in Hslice as (H & _). exact H. }
  apply Hburn in Hann as (H1 & H2 & H3 & H4).
  repeat (split; [assumption|]). exact Hredeem.
Qed.

End ParticipationEdges.

Section SliceEdges.

Import Vault.

Context {Ledger : Type} (E : Env Ledger).

(** X5.  Redeeming a slice is impossible while the unclaimed rewards recorded
    at the last payout, a value in the reference asset, are not below the
    total supply of shares: the divisor of the slice would not be positive,
    and the call aborts whatever the number of shares. *)
Theorem redeemUsingSlice_needs_supply_above_unclaimed (numShares : Z)
    (st : State Ledger) :
  totalSupply (storage st) <= unclaimedRewards (atLastPayout (storage st)) ->
  redeemUsingSlice E numShares st = Revert.
Proof.
  intros Hle. unfold redeemUsingSlice, separateSlice, DBC.pre_cond, assert, require.
  destruct (balancesOfHolderAtLeast _ _ _); [|reflexivity]. cbn.
  unfold SafeMath.sub.
  destruct (Z.leb_spec (unclaimedRewards (atLastPayout (storage st)))
              (totalSupply (storage st))) as [Hge|]; [|reflexivity].
  cbn. unfold isPastZero.
  destruct (Z.ltb_spec 0
              (totalSupply (storage st) - unclaimedRewards (atLastPayout (storage st))));
    [lia|reflexivity].
Qed.




(** X7.  The payout of a slice, for a vault with one assigned asset of which
    it holds [h]: the one transfer is of h * numShares / (totalSupply -
    atLastPayout.unclaimedRewards) to the caller, the division truncating.
    The divisor is the supply before the burn less the unclaimed rewards of
    the last payout. *)
Theorem redeemUsingSlice_single_asset_payout (numShares : Z) (Asset : address)
    (Price : PriceFeedProtocol) (st st' : State Ledger) :
  universe E = [(Asset, Price)] ->
  balanceOf (assets E) (ledger st) Asset (this E) <> 0 ->
  redeemUsingSlice E numShares st = Ok st' ->
  trace st' =
    trace st
    ++ [CallTransfer Asset (msg_sender E)
          (balanceOf (assets E) (ledger st) Asset (this E) * numShares
           / (totalSupply (storage st) - unclaimedRewards (atLastPayout (storage st))))
          (storage st');
        CallLogger (logRedeemed (msg_sender E) (now E) numShares)]
  /\ 0 < totalSupply (storage st) - unclaimedRewards (atLastPayout (storage st)).
Proof.
  intros Huniverse Hholds H.
  unfold redeemUsingSlice in H.
  apply bind_Ok in H as (? & _ & H).
  apply bind_Ok in H as (st2 & H & [= <-]).
  unfold separateSlice in H. rewrite Huniverse in H.
  apply bind_Ok in H as (prevTotalSupply & Hprev & H).
  apply sub_Ok in Hprev as [-> _].
  apply bind_Ok in H as (? & Hpos & H).
  apply assert_Ok in Hpos. unfold isPastZero in Hpos. apply Z.ltb_lt in Hpos.
  apply bind_Ok in H as (st1 & Hburn & H).
  apply onStorage_Ok in Hburn as (_ & Hledger & Htr1).
  cbn [separateSliceFrom] in H. rewrite Hledger in H.
  destruct (Z.eqb_spec (balanceOf (assets E) (ledger st) Asset (this E)) 0);
    [contradiction|].
  apply bind_Ok in H as (product & Hproduct & H).
  apply mul_Ok in Hproduct as [-> _].
  apply bind_Ok in H as (separationAmount & Hamount & H).
  apply div_Ok in Hamount as [-> _].
  apply bind_Ok in H as ([success st3] & Hcall & H).
  apply bind_Ok in H as (? & _ & [= <-]).
  apply callTransfer_Ok in Hcall as [Hst3 Htr3].
  split; [|exact Hpos].
  cbn. rewrite Htr3, Htr1, Hst3, <- app_assoc. reflexivity.
Qed.

End SliceEdges.

(** ** Vault: the subscription fee *)

Section FeeFacts.

Import Vault VaultManaging.

Lemma subscribe_Ok_price {Ledger : Type} (E : Env Ledger) (numShares offeredValue : Z)
    (st st' : State Ledger) :
  subscribe E numShares offeredValue st = Ok st' ->
  exists actualValue,
    subscribePriceForNumShares E (storage st) (ledger st) numShares = Ok actualValue.
Proof.
  intros H. apply subscribe_Ok_inv in H as (actualValue & _ & Hprice & _). eauto.
Qed.

(** X8.  The subscription fee has a floor and no ceiling, and the setter
    asks nothing of its caller: every fee from 1000 up is accepted.  A fee
    above the divisor 100000 is stored like any other, and from then on no
    subscription succeeds, for any investor, number of shares or offer. *)
Theorem fee_above_divisor_blocks_subscriptions (newFee : Z) (s : Storage) :
  SUBSCRIBE_FEE_DIVISOR < newFee ->
  setSubscriptionFee newFee s = Ok (set_subscriptionFee s newFee)
  /\ forall (Ledger : Type) (E : Env Ledger) numShares offeredValue
       (l : Ledger) (events : list Event) (st' : State Ledger),
       subscribe E numShares offeredValue (mkState (set_subscriptionFee s newFee) l events)
         <> Ok st'.
Proof.
  unfold SUBSCRIBE_FEE_DIVISOR. intros Hfee. split.
  - unfold setSubscriptionFee, DBC.pre_cond, require, atLeastThreshold,
      SUBSCRIBE_THRESHOLD.
    destruct (Z.geb_spec newFee 1000); [reflexivity|lia].
  - intros Ledger E numShares offeredValue l events st' H.
    apply subscribe_Ok_price in H as (actualValue & H).
    unfold subscribePriceForNumShares in H. cbn [storage subscriptionFee set_subscriptionFee] in H.
    apply bind_Ok in H as (price & _ & H).
    apply bind_Ok in H as (factor & Hfactor & _).
    apply sub_Ok in Hfactor as [_ Hle]. unfold SUBSCRIBE_FEE_DIVISOR in Hle. lia.
Qed.

(** X9.  The fee comes off the price: the subscription price of a number of
    shares is their price times (100000 - fee) / 100000, truncated, so it is
    never more than the price the same shares are redeemed at, and equal to
    it when the fee is zero. *)
Theorem subscription_price_at_most_price {Ledger : Type} (E : Env Ledger)
    (s : Storage) (l : Ledger) (numShares price subscribePrice : Z) :
  priceForNumShares E s l numShares = Ok price ->
  subscribePriceForNumShares E s l numShares = Ok subscribePrice ->
  0 <= price ->
  0 <= subscriptionFee s ->
  subscribePrice = price * (SUBSCRIBE_FEE_DIVISOR - subscriptionFee s) / SUBSCRIBE_FEE_DIVISOR
  /\ subscribePrice <= price
  /\ (subscriptionFee s = 0 -> subscribePrice = price).
Proof.
  intros Hprice H Hpos Hfee. unfold subscribePriceForNumShares in H.
  rewrite Hprice in H. cbn [mbind result_bind] in H.
  apply bind_Ok in H as (factor & Hfactor & H). apply sub_Ok in Hfactor as [-> Hle].
  apply bind_Ok in H as (product & Hproduct & H). apply mul_Ok in Hproduct as [-> _].
  apply div_Ok in H as [-> _].
  unfold SUBSCRIBE_FEE_DIVISOR in *.
  split; [reflexivity|]. split.
  - apply Z.div_le_upper_bound; [lia|]. nia.
  - intros ->. rewrite Z.sub_0_r. apply Z.div_mul. lia.
Qed.

End FeeFacts.

(** ** Vault: gross asset value *)

Section GavFacts.

Import Vault.

Context {Ledger : Type} (E : Env Ledger).

Lemma calcGavFrom_Ok (s : Storage) (l : Ledger)
    (assigned : list (address * PriceFeedProtocol)) :
  forall gav0 gav : Z,
  calcGavFrom E s l assigned gav0 = Ok gav ->
  Forall (fun entry => getQuoteAsset entry.2 = referenceAsset s) assigned
  /\ Forall (fun entry => pow10 (getDecimals (assets E) entry.1) <> 0) assigned
  /\ gav = gav0 + foldr (fun entry acc => assetValue E l entry + acc) 0 assigned.
Proof.
  induction assigned as [|[ofAsset Price] rest IH]; intros gav0 gav H; cbn in H.
  - injection H as <-. repeat constructor. cbn. lia.
  - apply bind_Ok in H as (? & Hquote & H).
    apply assert_Ok in Hquote. apply Z.eqb_eq in Hquote.
    apply bind_Ok in H as (product & Hproduct & H). apply mul_Ok in Hproduct as [-> _].
    apply bind_Ok in H as (value & Hvalue & H). apply div_Ok in Hvalue as [-> Hnz].
    apply bind_Ok in H as (gav' & Hadd & H). apply add_Ok in Hadd as [-> _].
    apply IH in H as (Hquotes & Hdecimals & ->).
    split; [constructor; [symmetry; exact Hquote|exact Hquotes]|].
    split; [constructor; [exact Hnz|exact Hdecimals]|].
    cbn [foldr]. unfold assetValue at 2. cbn [fst snd]. lia.
Qed.

(** X10.  When [calcGav] returns, every assigned price feed quotes the
    vault's reference asset, and the result is the sum over the assigned
    assets of holdings * price / 10 ** decimals, each term truncated on its
    own.  A single feed quoting another asset aborts the whole valuation. *)
Theorem calcGav_sums_asset_values (s : Storage) (l : Ledger) (gav : Z) :
  calcGav E s l = Ok gav ->
  Forall (fun entry => getQuoteAsset entry.2 = referenceAsset s) (universe E)
  /\ gav = foldr (fun entry acc => assetValue E l entry + acc) 0 (universe E).
Proof.
  intros H. apply calcGavFrom_Ok in H as (Hquotes & _ & ->). auto.
Qed.

(** X11.  A vault whose only assigned asset is its reference asset is worth
    what it holds of it: gav equals the balance, whatever the decimals, as
    long as 10 ** decimals is not zero modulo 2 ** 256 and holdings times it
    fit a uint256. *)
Theorem calcGav_reference_asset_only (s : Storage) (l : Ledger)
    (Price : PriceFeedProtocol) :
  universe E = [(referenceAsset s, Price)] ->
  getQuoteAsset Price = referenceAsset s ->
  pow10 (getDecimals (assets E) (referenceAsset s)) <> 0 ->
  balanceOf (assets E) l (referenceAsset s) (this E)
    * pow10 (getDecimals (assets E) (referenceAsset s)) <= MAX_UINT256 ->
  calcGav E s l = Ok (balanceOf (assets E) l (referenceAsset s) (this E)).
Proof.
  intros Huniverse Hquote Hnz Hfit.
  set (h := balanceOf (assets E) l (referenceAsset s) (this E)) in *.
  set (p := pow10 (getDecimals (assets E) (referenceAsset s))) in *.
  assert (Hp : 0 < p).
  { assert (0 <= p) by (subst p; unfold pow10, wrap; apply Z.mod_pos_bound; lia). lia. }
  assert (Hh : h <= MAX_UINT256).
  { pose proof MAX_UINT256_nonneg. destruct (Z.le_gt_cases 0 h); [nia|lia]. }
  unfold calcGav. rewrite Huniverse. cbn [calcGavFrom].
  rewrite Hquote, Z.eqb_refl. unfold assert, require. cbn [mbind result_bind].
  fold h p.
  rewrite (bind_Ok_l _ _ (h * p)) by (apply mul_Ok; auto).
  rewrite (bind_Ok_l _ _ h)
    by (apply div_Ok; split; [symmetry; apply Z.div_mul; lia|lia]).
  rewrite (bind_Ok_l _ _ h) by (apply add_Ok; split; [lia|lia]).
  reflexivity.
Qed.

Lemma pow10_wraps_to_zero (k : Z) : 256 <= k -> pow10 k = 0.
Proof.
  intros Hk. unfold pow10, wrap.
  replace 10 with (2 * 5) by reflexivity.
  rewrite Z.pow_mul_l.
  replace k with (256 + (k - 256)) at 1 by lia.
  rewrite Z.pow_add_r by lia.
  rewrite <- Z.mul_assoc, Z.mul_comm. apply Z.mod_mul. lia.
Qed.

(** X12.  An assigned asset that reports 256 decimals or more makes the fund
    impossible to value: 10 ** decimals wraps to zero modulo 2 ** 256, the
    division by it aborts, and [calcGav] does not return. *)
Theorem calcGav_aborts_on_wrapped_decimals (s : Storage) (l : Ledger)
    (ofAsset : address) (Price : PriceFeedProtocol) (gav : Z) :
  (ofAsset, Price) ∈ universe E ->
  256 <= getDecimals (assets E) ofAsset ->
  calcGav E s l <> Ok gav.
Proof.
  intros Hin Hdecimals H.
  apply calcGavFrom_Ok in H as (_ & Hnz & _).
  rewrite Forall_forall in Hnz. specialize (Hnz _ Hin). cbn in Hnz.
  apply Hnz. apply pow10_wraps_to_zero. exact Hdecimals.
Qed.

End GavFacts.

(** ** Vault: more on the conversion of rewards *)

Section ConversionFacts.

Import Vault.

Context {Ledger : Type} (E : Env Ledger).

(** X13.  Rewards are converted for the owner only, and only for a fund
    with a positive gross asset value: a call by anyone else aborts, and so
    does a call on a fund valued at zero. *)
Theorem convertUnclaimedRewards_owner_and_value (st : State Ledger) :
  (msg_sender E <> owner (storage st) -> convertUnclaimedRewards E st = Revert)
  /\ (calcGav E (storage st) (ledger st) = Ok 0 ->
      forall st', convertUnclaimedRewards E st <> Ok st')
  /\ (forall st', convertUnclaimedRewards E st = Ok st' ->
      msg_sender E = owner (storage st)
      /\ exists gav, calcGav E (storage st) (ledger st) = Ok gav /\ 0 < gav).
Proof.
  assert (Hok : forall st', convertUnclaimedRewards E st = Ok st' ->
            msg_sender E = owner (storage st)
            /\ exists gav, calcGav E (storage st) (ledger st) = Ok gav /\ 0 < gav).
  { intros st' H. unfold convertUnclaimedRewards in H.
    apply bind_Ok in H as (? & Howner & H).
    apply pre_cond_Ok in Howner. unfold isOwner in Howner. apply Z.eqb_eq in Howner.
    apply bind_Ok in H as ([[[[[gav m] p] u] nav] price] & Hcalc & H).
    apply bind_Ok in H as (? & Hgav & _).
    apply assert_Ok in Hgav. unfold isPastZero in Hgav. apply Z.ltb_lt in Hgav.
    apply performCalculations_Ok in Hcalc as (Hcalc & _).
    split; [exact Howner|]. exists gav. auto. }
  split; [|split; [|exact Hok]].
  - intros Hne. unfold convertUnclaimedRewards, isOwner, DBC.pre_cond, require.
    destruct (Z.eqb_spec (msg_sender E) (owner (storage st))); [contradiction|].
    reflexivity.
  - intros Hzero st' H. apply Hok in H as (_ & gav & Hgav & Hpos).
    rewrite Hzero in Hgav. injection Hgav as <-. lia.
Qed.

(** X14.  A conversion of rewards moves no token and touches no holder but
    the owner.  It makes no transfer; the token balances are as before; every
    other holder's share balance is as before; its last two calls tell the
    logger of the conversion and of the new figures; and the record of the
    last payout it leaves is consistent: unclaimed rewards are management
    plus performance reward and at most gav, nav is gav less the unclaimed
    rewards, the time is now, and the share price recorded is the net asset
    value per share (one base unit per share for an empty supply), whether or
    not that is above the price recorded before. *)
Theorem convertUnclaimedRewards_effects (st st' : State Ledger) :
  convertUnclaimedRewards E st = Ok st' ->
  let payout := atLastPayout (storage st') in
  ledger st' = ledger st
  /\ tokenTransfers (trace st') = tokenTransfers (trace st)
  /\ (exists numShares earlier,
        trace st' =
          earlier
          ++ [CallLogger (logRewardsConverted (now E) numShares (unclaimedRewards payout));
              CallLogger
                (logCalculationUpdate (now E) (managementReward payout)
                   (performanceReward payout) (nav payout) (sharePrice payout)
                   (totalSupply (storage st)))])
  /\ (forall holder, holder <> owner (storage st) ->
      balanceOfHolder (storage st') holder = balanceOfHolder (storage st) holder)
  /\ unclaimedRewards payout = managementReward payout + performanceReward payout
  /\ unclaimedRewards payout <= gav payout
  /\ nav payout = gav payout - unclaimedRewards payout
  /\ timestamp payout = now E
  /\ totalSupplyAtPayout payout = totalSupply (storage st)
  /\ (0 < totalSupply (storage st) ->
      sharePrice payout
        = nav payout * baseUnitsPerShare (storage st) / totalSupply (storage st))
  /\ (totalSupply (storage st) = 0 ->
      sharePrice payout = baseUnitsPerShare (storage st)).
Proof.
  intros H. unfold convertUnclaimedRewards in H.
  apply bind_Ok in H as (? & _ & H).
  apply bind_Ok in H as ([[[[[gav m] p] u] nav] price] & Hcalc & H).
  apply bind_Ok in H as (? & _ & H).
  apply bind_Ok in H as (product & _ & H).
  apply bind_Ok in H as (numShares & _ & H).
  apply bind_Ok in H as (st1 & Hadd & [= <-]).
  apply onStorage_Ok in Hadd as (Hadd & Hledger & Htrace).
  apply addShares_Ok in Hadd as [Hst1 _].
  apply performCalculations_Ok in Hcalc as (_ & Hrewards & Hnav & Hprice).
  apply calcUnclaimedRewards_Ok in Hrewards as (_ & -> & _).
  apply sub_Ok in Hnav as [-> Hle].
  cbn. rewrite Hst1. cbn.
  split; [exact Hledger|]. split.
  { rewrite Htrace, !tokenTransfers_app. cbn. rewrite !app_nil_r. reflexivity. }
  split.
  { exists numShares, (trace st). rewrite Htrace, <- app_assoc. reflexivity. }
  split.
  { intros holder Hne. unfold balanceOfHolder. cbn.
    rewrite lookup_insert_ne by congruence. reflexivity. }
  repeat (split; [reflexivity || exact Hle|]).
  unfold isPastZero in Hprice. split.
  - intros Hpos. apply Z.ltb_lt in Hpos as Hpos'. rewrite Hpos' in Hprice.
    apply calcValuePerShare_Ok in Hprice as (_ & _ & ->). reflexivity.
  - intros Hzero. rewrite Hzero in Hprice. cbn in Hprice. congruence.
Qed.

End ConversionFacts.

(** ** ValueInterpreter: primitives, empty and circular derivatives *)

Section InterpreterEdges.

Import ValueInterpreter.

Context (W : World).

(** Past the entry guard, an asset unknown to the primitive feed and known
    to the derivative feed is valued by the loop over its underlyings. *)
Lemma calcAssetValue_derivative_path
    (gas : nat) (pf df derivative : address) (amount : Z) (quote : address)
    (live : bool) (underlyings : list address) (rates : list Z) :
  pf <> 0 -> derivative <> 0 -> quote <> 0 -> amount <> 0 ->
  IPrimitivePriceFeed.isSupportedAsset (primitivePriceFeedAt W pf) quote = true ->
  IPrimitivePriceFeed.isSupportedAsset (primitivePriceFeedAt W pf) derivative = false ->
  df <> 0 ->
  IDerivativePriceFeed.isSupportedAsset (derivativePriceFeedAt W df) derivative = true ->
  IDerivativePriceFeed.getRatesToUnderlyings (derivativePriceFeedAt W df) derivative
    = (underlyings, rates) ->
  __calcAssetValue W (S gas) pf df derivative amount quote live
    = derivativeValueFrom W
        (fun underlying underlyingAmount =>
           __calcAssetValue W gas pf df underlying underlyingAmount quote live)
        derivative amount rates 0 underlyings 0 true.
Proof.
  intros Hpf Hbase Hquote Hamount Hq Hprim Hdf Hder Hrates.
  cbn [__calcAssetValue].
  destruct (Z.eqb_spec pf 0); [contradiction|].
  destruct (Z.eqb_spec derivative 0); [contradiction|].
  destruct (Z.eqb_spec quote 0); [contradiction|].
  destruct (Z.eqb_spec amount 0); [contradiction|].
  destruct (Z.eqb_spec df 0); [contradiction|].
  rewrite Hq, Hprim, Hder. cbn [negb orb andb].
  unfold __calcDerivativeValue. rewrite Hrates. reflexivity.
Qed.

Lemma pow10_exact (k : Z) : 0 <= k <= 77 -> pow10 k = 10 ^ k.
Proof.
  intros Hk. unfold pow10, wrap. apply Z.mod_small. split.
  - apply Z.pow_nonneg. lia.
  - apply Z.le_lt_trans with (10 ^ 77).
    + apply Z.pow_le_mono_r; lia.
    + apply Z.ltb_lt. vm_compute. reflexivity.
Qed.

(** X15.  The value of a primitive asset.  Past the entry guard, an amount
    of an asset the primitive feed supports is valued exactly when rate *
    amount and rate * amount * 10 ** quoteDecimals fit a uint256; the value
    is then rate * amount * 10 ** quoteDecimals / 10 ** (18 + baseDecimals),
    truncated, with the validity flag of the feed.  The rate is the live or
    the canonical one as asked; nothing else differs between the two modes,
    and base = quote is valued through the feed like any other pair. *)
Theorem primitive_value_formula
    (gas : nat) (pf df base : address) (amount : Z) (quote : address) (live : bool)
    (rate : Z) (flag : bool) (value : Z) (isValid : bool) :
  pf <> 0 -> base <> 0 -> quote <> 0 -> amount <> 0 ->
  IPrimitivePriceFeed.isSupportedAsset (primitivePriceFeedAt W pf) quote = true ->
  IPrimitivePriceFeed.isSupportedAsset (primitivePriceFeedAt W pf) base = true ->
  (if live then IPrimitivePriceFeed.getLiveRate (primitivePriceFeedAt W pf) base quote
   else (IPrimitivePriceFeed.getCanonicalRate (primitivePriceFeedAt W pf) base quote).1)
    = (rate, flag) ->
  0 <= decimals W quote <= 77 ->
  0 <= decimals W base <= 59 ->
  __calcAssetValue W (S gas) pf df base amount quote live = Ok (value, isValid)
  <-> rate * amount <= MAX_UINT256
      /\ rate * amount * 10 ^ decimals W quote <= MAX_UINT256
      /\ value = rate * amount * 10 ^ decimals W quote / 10 ^ (18 + decimals W base)
      /\ isValid = flag.
Proof.
  intros Hpf Hbase Hquote Hamount Hq Hprim Hrate Hdq Hdb.
  cbn [__calcAssetValue].
  destruct (Z.eqb_spec pf 0); [contradiction|].
  destruct (Z.eqb_spec base 0); [contradiction|].
  destruct (Z.eqb_spec quote 0); [contradiction|].
  destruct (Z.eqb_spec amount 0); [contradiction|].
  rewrite Hq, Hprim. cbn [negb orb].
  unfold __calcPrimitiveValue.
  assert (Hpair :
    (if live then IPrimitivePriceFeed.getLiveRate (primitivePriceFeedAt W pf) base quote
     else
       let '(rate0, isValid0, _) :=
         IPrimitivePriceFeed.getCanonicalRate (primitivePriceFeedAt W pf) base quote in
       (rate0, isValid0)) = (rate, flag)).
  { destruct live; [exact Hrate|].
    destruct (IPrimitivePriceFeed.getCanonicalRate _ _ _) as [[r f] t]. exact Hrate. }
  rewrite Hpair. unfold __calcDenormalizedConversionAmount, RATE_PRECISION.
  rewrite (pow10_exact (decimals W quote)) by lia.
  assert (Hexp : 18 + decimals W base <= MAX_UINT256).
  { apply Z.le_trans with 77; [lia|]. apply Z.leb_le. vm_compute. reflexivity. }
  assert (Hpos : 0 < 10 ^ (18 + decimals W base)) by (apply Z.pow_pos_nonneg; lia).
  split.
  - intros H.
    apply bind_Ok in H as (v & H & [= <- <-]).
    apply bind_Ok in H as (scaled & Hscaled & H). apply mul_Ok in Hscaled as [-> Hfit1].
    apply bind_Ok in H as (numerator & Hnum & H). apply mul_Ok in Hnum as [-> Hfit2].
    apply bind_Ok in H as (exponent & Hexponent & H). apply add_Ok in Hexponent as [-> _].
    apply div_Ok in H as [-> _].
    rewrite (pow10_exact (18 + decimals W base)) by lia. auto.
  - intros (Hfit1 & Hfit2 & -> & ->).
    rewrite (bind_Ok_l _ _ (rate * amount * 10 ^ decimals W quote / 10 ^ (18 + decimals W base)));
      [reflexivity|].
    rewrite (bind_Ok_l _ _ (rate * amount)) by (apply mul_Ok; auto).
    rewrite (bind_Ok_l _ _ (rate * amount * 10 ^ decimals W quote)) by (apply mul_Ok; auto).
    rewrite (bind_Ok_l _ _ (18 + decimals W base)) by (apply add_Ok; auto).
    apply div_Ok. rewrite (pow10_exact (18 + decimals W base)) by lia.
    split; [reflexivity|lia].
Qed.



Lemma allValid_lookup_false (results : list (Z * bool)) (i : nat) (r : Z * bool) :
  results !! i = Some r -> r.2 = false -> allValid results = false.
Proof.
  revert i. induction results as [|r0 results IH]; intros i Hi Hr; [discriminate Hi|].
  rewrite allValid_cons. destruct i as [|i]; cbn in Hi.
  - injection Hi as ->. rewrite Hr. reflexivity.
  - rewrite (IH i Hi Hr). apply andb_false_r.
Qed.

(** X18.  Dust makes a derivative invalid.  If the amount of one underlying,
    converted at its rate, truncates to zero, then whenever the derivative is
    valued its validity flag is false, however valid the other underlyings
    are: the underlying is valued as a zero amount, which is invalid. *)
Theorem derivative_with_zero_underlying_amount_is_invalid
    (gas : nat) (pf df derivative : address) (amount : Z) (quote : address)
    (live : bool) (underlyings : list address) (rates : list Z)
    (i : nat) (underlying : address) (rate value : Z) (isValid : bool) :
  pf <> 0 -> derivative <> 0 -> quote <> 0 -> amount <> 0 ->
  IPrimitivePriceFeed.isSupportedAsset (primitivePriceFeedAt W pf) quote = true ->
  IPrimitivePriceFeed.isSupportedAsset (primitivePriceFeedAt W pf) derivative = false ->
  df <> 0 ->
  IDerivativePriceFeed.isSupportedAsset (derivativePriceFeedAt W df) derivative = true ->
  IDerivativePriceFeed.getRatesToUnderlyings (derivativePriceFeedAt W df) derivative
    = (underlyings, rates) ->
  underlyings !! i = Some underlying ->
  rates !! i = Some rate ->
  __calcDenormalizedConversionAmount W derivative amount underlying rate = Ok 0 ->
  __calcAssetValue W (S gas) pf df derivative amount quote live = Ok (value, isValid) ->
  isValid = false.
Proof.
  intros Hpf Hbase Hquote Hamount Hq Hprim Hdf Hder Hrates Hu Hr Hconv H.
  erewrite calcAssetValue_derivative_path in H by eassumption.
  apply derivativeValueFrom_Ok in H as (results & _ & Hval & _ & _ & ->).
  rewrite drop_0 in Hval. cbn [andb].
  assert (Hpair : zip underlyings rates !! i = Some (underlying, rate)).
  { rewrite lookup_zip_with, Hu. cbn. rewrite Hr. reflexivity. }
  destruct (Forall2_lookup_l _ _ _ _ _ Hval Hpair)
    as (r & Hri & underlyingAmount & Hconv' & Hcall).
  cbn [fst snd] in Hconv', Hcall.
  rewrite Hconv in Hconv'. injection Hconv' as <-.
  apply (allValid_lookup_false results i r Hri).
  destruct gas as [|gas]; [discriminate Hcall|].
  rewrite calcAssetValue_guard in Hcall by tauto.
  injection Hcall as <-. reflexivity.
Qed.

End InterpreterEdges.

(** ** Vault: managing *)

Section ManagingFacts.

Import Vault VaultManaging.

Context {Ledger Market : Type}.
Context (E : Env Ledger) (U : UniverseProtocol) (R : RiskMgmtProtocol)
  (X : ExchangeProtocol Market).

(** X19.  The pairs the vault trades.  [requireIsWithinKnownUniverse]
    passes exactly when both tokens are available in the universe, both are
    assigned to the exchange at hand, and exactly one of the two is the
    reference asset; so the two tokens of an order always differ. *)
Theorem known_universe_pairs_with_reference_asset (s : Storage)
    (onExchange sell_which_token buy_which_token : address) :
  requireIsWithinKnownUniverse U s onExchange sell_which_token buy_which_token = Ok tt
  <-> assetAvailability U buy_which_token = true
      /\ assetAvailability U sell_which_token = true
      /\ (buy_which_token = referenceAsset s /\ sell_which_token <> referenceAsset s
          \/ sell_which_token = referenceAsset s /\ buy_which_token <> referenceAsset s)
      /\ assignedExchange U buy_which_token = onExchange
      /\ assignedExchange U sell_which_token = onExchange.
Proof.
  unfold requireIsWithinKnownUniverse, require.
  destruct (assetAvailability U buy_which_token);
    [|split; [discriminate|intros (? & _); discriminate]].
  destruct (assetAvailability U sell_which_token);
    [|split; [discriminate|intros (_ & ? & _); discriminate]].
  cbn [mbind result_bind].
  destruct (Z.eqb_spec buy_which_token (referenceAsset s)) as [Hb|Hb];
    destruct (Z.eqb_spec sell_which_token (referenceAsset s)) as [Hs|Hs];
    cbn [negb orb mbind result_bind];
    try (split; [discriminate|intros (_ & _ & [[? ?]|[? ?]] & _); contradiction]);
    destruct (Z.eqb_spec onExchange (assignedExchange U buy_which_token));
    destruct (Z.eqb_spec onExchange (assignedExchange U sell_which_token));
    cbn [mbind result_bind];
    split; try discriminate; try (intros (_ & _ & _ & ? & ?); congruence);
    intros _; repeat split; auto.
Qed.

(** X20.  Managing is for the owner.  [makeOrder], [takeOrder] and
    [cancelOrder] called by anyone else abort before any call to a token or
    an exchange is made. *)
Theorem managing_is_for_the_owner (s : Storage) (onExchange : address)
    (sell_how_much : Z) (sell_which_token : address)
    (buy_how_much : Z) (buy_which_token : address) (id wantedBuyAmount : Z)
    (st : Market * list ManagingEvent) :
  msg_sender E <> owner s ->
  makeOrder E U R X s onExchange sell_how_much sell_which_token buy_how_much
    buy_which_token st = Revert
  /\ takeOrder E U R X s onExchange id wantedBuyAmount st = Revert
  /\ cancelOrder E X s onExchange id st = Revert.
Proof.
  intros Hne.
  unfold makeOrder, takeOrder, cancelOrder, isOwner, DBC.pre_cond, require.
  destruct (Z.eqb_spec (msg_sender E) (owner s)); [contradiction|].
  repeat split; reflexivity.
Qed.

Lemma approveSpending_Ok (ofToken onExchange : address) (amount : Z)
    (st st' : Market * list ManagingEvent) :
  approveSpending E X ofToken onExchange amount st = Ok st' ->
  st'.2 = st.2 ++ [CallApprove ofToken onExchange amount;
                   LogSpendingApproved ofToken onExchange amount].
Proof.
  unfold approveSpending. intros H.
  apply bind_Ok in H as ([success m'] & _ & H).
  apply bind_Ok in H as (? & _ & [= <-]). reflexivity.
Qed.

(** X21.  Taking an order.  A successful [takeOrder] is the owner's, for an
    order whose tokens pass the universe check and the risk management, and
    for at most the amount the order offers to buy, which is not zero.  The
    exchange is approved to spend wantedBuyAmount * offeredSellAmount /
    offeredBuyAmount of the order's sell token, truncated, before the order
    is taken, and that is never more than the order's own sell amount. *)
Theorem takeOrder_approves_pro_rata (s : Storage) (onExchange : address)
    (id wantedBuyAmount : Z) (st st' : Market * list ManagingEvent) (success : bool)
    (offeredBuyAmount : Z) (offeredBuyToken : address)
    (offeredSellAmount : Z) (offeredSellToken : address) :
  getOrder X st.1 onExchange id
    = (offeredBuyAmount, offeredBuyToken, offeredSellAmount, offeredSellToken) ->
  takeOrder E U R X s onExchange id wantedBuyAmount st = Ok (success, st') ->
  msg_sender E = owner s
  /\ wantedBuyAmount <= offeredBuyAmount
  /\ offeredBuyAmount <> 0
  /\ requireIsWithinKnownUniverse U s onExchange offeredSellToken offeredBuyToken = Ok tt
  /\ isExchangeTakePermitted R onExchange offeredSellAmount offeredSellToken
       offeredBuyAmount offeredBuyToken (getOwner X st.1 onExchange id) = true
  /\ st'.2 =
       st.2
       ++ [CallApprove offeredSellToken onExchange
             (wantedBuyAmount * offeredSellAmount / offeredBuyAmount);
           LogSpendingApproved offeredSellToken onExchange
             (wantedBuyAmount * offeredSellAmount / offeredBuyAmount);
           CallTake onExchange id wantedBuyAmount]
  /\ (0 <= wantedBuyAmount -> 0 <= offeredSellAmount ->
      wantedBuyAmount * offeredSellAmount / offeredBuyAmount <= offeredSellAmount).
Proof.
  intros Horder H. unfold takeOrder in H. rewrite Horder in H.
  apply bind_Ok in H as (? & Howner & H).
  apply pre_cond_Ok in Howner. unfold isOwner in Howner. apply Z.eqb_eq in Howner.
  apply bind_Ok in H as (? & Hwanted & H).
  apply require_Ok in Hwanted. apply Z.leb_le in Hwanted.
  apply bind_Ok in H as ([] & Hknown & H).
  apply bind_Ok in H as (? & Hrisk & H).
  apply require_Ok in Hrisk.
  apply bind_Ok in H as (product & Hproduct & H). apply mul_Ok in Hproduct as [-> _].
  apply bind_Ok in H as (wantedSellAmount & Hsell & H).
  apply div_Ok in Hsell as [-> Hnz].
  apply bind_Ok in H as (st1 & Happrove & H).
  apply approveSpending_Ok in Happrove.
  apply bind_Ok in H as ([ok m'] & _ & [= _ <-]).
  repeat (split; [assumption|]).
  split.
  { cbn. rewrite Happrove, <- app_assoc. reflexivity. }
  intros Hw Hs.
  destruct (Z.eq_dec wantedBuyAmount 0) as [->|Hpos].
  - rewrite Z.mul_0_l, Z.div_0_l by exact Hnz. exact Hs.
  - apply Z.div_le_upper_bound; [lia|nia].
Qed.

(** X22.  Making an order.  A successful [makeOrder] is the owner's, passes
    the risk management and the universe check, and approves the exchange for
    exactly the amount sold of the token sold before it places the order. *)
Theorem makeOrder_approves_then_makes (s : Storage) (onExchange : address)
    (sell_how_much : Z) (sell_which_token : address)
    (buy_how_much : Z) (buy_which_token : address)
    (st st' : Market * list ManagingEvent) (id : Z) :
  makeOrder E U R X s onExchange sell_how_much sell_which_token buy_how_much
    buy_which_token st = Ok (id, st') ->
  msg_sender E = owner s
  /\ isExchangeMakePermitted R onExchange sell_how_much sell_which_token buy_how_much
       buy_which_token = true
  /\ requireIsWithinKnownUniverse U s onExchange sell_which_token buy_which_token = Ok tt
  /\ st'.2 =
       st.2
       ++ [CallApprove sell_which_token onExchange sell_how_much;
           LogSpendingApproved sell_which_token onExchange sell_how_much;
           CallMake onExchange sell_how_much sell_which_token buy_how_much
             buy_which_token].
Proof.
  intros H. unfold makeOrder in H.
  apply bind_Ok in H as (? & Howner & H).
  apply pre_cond_Ok in Howner. unfold isOwner in Howner. apply Z.eqb_eq in Howner.
  apply bind_Ok in H as (? & Hrisk & H). apply pre_cond_Ok in Hrisk.
  apply bind_Ok in H as ([] & Hknown & H).
  apply bind_Ok in H as (st1 & Happrove & H).
  apply approveSpending_Ok in Happrove.
  apply bind_Ok in H as ([id' m'] & _ & [= _ <-]).
  repeat (split; [assumption|]).
  cbn. rewrite Happrove, <- app_assoc. reflexivity.
Qed.

End ManagingFacts.

(** ** AmguConsumer: what is charged and what is refunded *)

Section AmguFacts.

Import AmguConsumer.

Context (C : Collaborators) (msg_sender : address) (msg_value : Z).

Lemma chargeAmgu_Ok (gasUsed ethCharged : Z) (events : list Event) :
  __chargeAmgu C msg_sender msg_value gasUsed = Ok (ethCharged, events) ->
  etherOut events = ethCharged
  /\ (getAmguPrice C <= 0 -> ethCharged = 0 /\ events = [])
  /\ (0 < getAmguPrice C -> ethCharged <= msg_value).
Proof.
  unfold __chargeAmgu. intros H.
  destruct (Z.gtb_spec (getAmguPrice C) 0) as [Hpos|Hle].
  - apply bind_Ok in H as (mlnQuantity & _ & H).
    apply bind_Ok in H as ([v flag] & _ & H).
    apply bind_Ok in H as (? & Hvalue & H).
    apply require_Ok in Hvalue. apply Z.geb_le in Hvalue.
    apply bind_Ok in H as (? & _ & [= <- <-]).
    cbn. split; [lia|]. split; [lia|auto].
  - injection H as <- <-. cbn. split; [reflexivity|]. split; [auto|lia].
Qed.

Lemma refundExtraEther_Ok (totalEthCharged : Z) (events : list Event) :
  __refundExtraEther C msg_sender msg_value totalEthCharged = Ok events ->
  events = [Sent msg_sender (msg_value - totalEthCharged)]
  /\ totalEthCharged <= msg_value.
Proof.
  unfold __refundExtraEther. intros H.
  apply bind_Ok in H as (refund & Hrefund & H). apply sub_Ok in Hrefund as [-> Hle].
  apply bind_Ok in H as (? & _ & [= <-]). auto.
Qed.

Lemma etherOut_app (events events' : list Event) :
  etherOut (events ++ events') = etherOut events + etherOut events'.
Proof.
  induction events as [|ev events IH]; cbn; [reflexivity|].
  fold (etherOut (events ++ events')). fold (etherOut events).
  destruct ev; lia.
Qed.

(** X23.  No ether is kept by [amguPayable].  When a function under the
    modifier succeeds, what is paid to the engine and what is sent back to
    the caller add up to the ether that came with the call; with an AMGU price
    of zero nothing is valued or paid, and all of it is sent back. *)
Theorem amguPayable_returns_the_change {A : Type} (body : result A)
    (preGas postGas : Z) (a : A) (events : list Event) :
  amguPayable C msg_sender msg_value body preGas postGas = Ok (a, events) ->
  body = Ok a
  /\ postGas <= preGas
  /\ etherOut events = msg_value
  /\ (getAmguPrice C <= 0 -> events = [Sent msg_sender msg_value]).
Proof.
  unfold amguPayable. intros H.
  apply bind_Ok in H as (a' & Hbody & H).
  apply bind_Ok in H as (gasUsed & Hgas & H). apply sub_Ok in Hgas as [-> Hgas].
  apply bind_Ok in H as ([ethCharged charged] & Hcharge & H).
  apply bind_Ok in H as (refunded & Hrefund & [= <- <-]).
  apply chargeAmgu_Ok in Hcharge as (Hout & Hzero & _).
  apply refundExtraEther_Ok in Hrefund as [-> _].
  split; [exact Hbody|]. split; [exact Hgas|]. split.
  - rewrite etherOut_app, Hout. cbn. lia.
  - intros Hprice. destruct (Hzero Hprice) as [-> ->]. cbn. rewrite Z.sub_0_r. reflexivity.
Qed.

(** X24.  Under [amguPayableWithIncentive] a call succeeds only with ether
    for the incentive and the AMGU charge together; the engine's payment and
    the refund add up to the ether sent less the incentive, which stays with
    the contract. *)
Theorem amguPayableWithIncentive_keeps_the_incentive {A : Type} (body : result A)
    (preGas postGas : Z) (a : A) (events : list Event) :
  amguPayableWithIncentive C msg_sender msg_value body preGas postGas = Ok (a, events) ->
  body = Ok a
  /\ incentive C <= msg_value
  /\ etherOut events = msg_value - incentive C
  /\ (exists ethCharged earlier,
        events = earlier ++ [Sent msg_sender (msg_value - (incentive C + ethCharged));
                             IncentivePaid msg_sender (incentive C)]
        /\ etherOut earlier = ethCharged
        /\ incentive C + ethCharged <= msg_value).
Proof.
  unfold amguPayableWithIncentive. intros H.
  apply bind_Ok in H as (? & Hincentive & H).
  apply require_Ok in Hincentive. apply Z.geb_le in Hincentive.
  apply bind_Ok in H as (a' & Hbody & H).
  apply bind_Ok in H as (gasUsed & _ & H).
  apply bind_Ok in H as ([ethCharged charged] & Hcharge & H).
  apply bind_Ok in H as (totalEthCharged & _ & H).
  apply bind_Ok in H as (? & _ & H).
  apply bind_Ok in H as (total & Htotal & H). apply add_Ok in Htotal as [-> _].
  apply bind_Ok in H as (refunded & Hrefund & [= <- <-]).
  apply chargeAmgu_Ok in Hcharge as (Hout & _ & _).
  apply refundExtraEther_Ok in Hrefund as [-> Hle].
  split; [exact Hbody|]. split; [exact Hincentive|]. split.
  - rewrite !etherOut_app, Hout. cbn. lia.
  - exists ethCharged, charged. auto.
Qed.

(** X25.  The validity flag of the valuation is not looked at.  With a
    positive AMGU price, the charge is the value the interpreter returns for
    price * gas of MLN, whether flagged valid or not, provided the call
    carries that much ether and the engine takes the payment. *)
Theorem chargeAmgu_ignores_validity (gasUsed value : Z) (flag : bool) :
  0 < getAmguPrice C ->
  getAmguPrice C * gasUsed <= MAX_UINT256 ->
  calcCanonicalAssetValue C (MLN_TOKEN C) (getAmguPrice C * gasUsed) (WETH_TOKEN C)
    = Ok (value, flag) ->
  value <= msg_value ->
  payAmguInEther C value = Ok tt ->
  __chargeAmgu C msg_sender msg_value gasUsed
    = Ok (value, [PaidAmguInEther value; AmguPaid msg_sender value gasUsed]).
Proof.
  intros Hprice Hfit Hvalue Hle Hpay. unfold __chargeAmgu.
  destruct (Z.gtb_spec (getAmguPrice C) 0); [|lia].
  rewrite (bind_Ok_l _ _ (getAmguPrice C * gasUsed)) by (apply mul_Ok; auto).
  rewrite Hvalue. cbn [mbind result_bind]. unfold require.
  destruct (Z.geb_spec msg_value value); [|lia].
  cbn [mbind result_bind]. rewrite Hpay. reflexivity.
Qed.

End AmguFacts.

(** ** FundRanking: the five arrays *)

Section RankingFacts.

Import FundRanking.

Lemma fillList_length {A : Type} (g : nat -> A) (count : nat) :
  forall (from : nat) (l : list A), length (fillList g from count l) = length l.
Proof.
  induction count as [|count IH]; intros from l; cbn; [reflexivity|].
  rewrite IH. apply length_insert.
Qed.

Lemma fillList_lookup {A : Type} (g : nat -> A) (count : nat) :
  forall (from : nat) (l : list A) (i : nat),
  (from + count <= length l)%nat ->
  fillList g from count l !! i
    = if decide (from <= i < from + count)%nat then Some (g i) else l !! i.
Proof.
  induction count as [|count IH]; intros from l i Hlen; cbn.
  - case_decide; [lia|reflexivity].
  - rewrite IH by (rewrite length_insert; lia).
    destruct (decide (i = from)) as [->|Hne].
    + rewrite list_lookup_insert_eq by lia.
      repeat case_decide; (reflexivity || lia).
    + rewrite list_lookup_insert_ne by congruence.
      repeat case_decide; (reflexivity || lia).
Qed.

Context {Name : Type} (emptyName : Name) (B : Chain Name).

Lemma fillFrom_arrays (_factory : address) (count : nat) :
  forall (from : nat) (d : Details Name),
  let hub := fun i : nat => funds B _factory (Z.of_nat i) in
  fillFrom B _factory from count d
    = mkDetails
        (fillList hub from count (hubs d))
        (fillList (fun i => QUOTE_ASSET B (accounting B (hub i))) from count (quoteAssets d))
        (fillList (fun i => calcSharePrice B (accounting B (hub i))) from count
           (sharePrices d))
        (fillList (fun i => creationTime B (hub i)) from count (creationTimes d))
        (fillList (fun i => name B (hub i)) from count (names d)).
Proof.
  induction count as [|count IH]; intros from d; cbn.
  - destruct d; reflexivity.
  - rewrite IH. reflexivity.
Qed.

(** X26.  The five arrays of [getFundDetails] are parallel: each has
    getLastFundId() + 1 entries, counted modulo 2 ** 256, and entry [i] of
    each describes the hub [funds(i)]: the hub itself, the quote asset and the
    share price of its accounting contract, its creation time and its name.
    For a factory whose last fund id is 2 ** 256 - 1 the sum wraps to zero
    and all five arrays are empty. *)
Theorem getFundDetails_parallel_arrays (_factory : address) :
  let numberOfFunds := Z.to_nat (wrap (getLastFundId B _factory + 1)) in
  let details := getFundDetails emptyName B _factory in
  length (hubs details) = numberOfFunds
  /\ length (quoteAssets details) = numberOfFunds
  /\ length (sharePrices details) = numberOfFunds
  /\ length (creationTimes details) = numberOfFunds
  /\ length (names details) = numberOfFunds
  /\ (forall i : nat, (i < numberOfFunds)%nat ->
      let hub := funds B _factory (Z.of_nat i) in
      hubs details !! i = Some hub
      /\ quoteAssets details !! i = Some (QUOTE_ASSET B (accounting B hub))
      /\ sharePrices details !! i = Some (calcSharePrice B (accounting B hub))
      /\ creationTimes details !! i = Some (creationTime B hub)
      /\ names details !! i = Some (name B hub))
  /\ (getLastFundId B _factory = MAX_UINT256 ->
      details = mkDetails [] [] [] [] []).
Proof.
  intros numberOfFunds details. subst details. unfold getFundDetails.
  fold numberOfFunds. rewrite fillFrom_arrays. cbn [hubs quoteAssets sharePrices
    creationTimes names].
  repeat (split; [rewrite fillList_length; apply length_replicate|]).
  split.
  - intros i Hi. cbn zeta.
    repeat split; rewrite fillList_lookup by (rewrite length_replicate; lia);
      (case_decide; [reflexivity|lia]).
  - intros Hlast.
    assert (Hzero : numberOfFunds = 0%nat).
    { subst numberOfFunds. rewrite Hlast. vm_compute. reflexivity. }
    rewrite Hzero. reflexivity.
Qed.

End RankingFacts.

(** ** The further properties on the scenarios *)

Section MoreScenarioFacts.

Import Vault VaultManaging.

Lemma participation_conserves_shares_witness :
  exists st',
    subscribe (fundEnv investor) 100 1000 subscriberState = Ok st'
    /\ conserved (storage st').
Proof.
  destruct (subscribe (fundEnv investor) 100 1000 subscriberState) as [st'| |] eqn:H;
    [|vm_compute in H; discriminate H..].
  exists st'. split; [reflexivity|].
  apply (participation_conserves_shares (fundEnv investor) 100 1000 subscriberState st').
  - vm_compute. reflexivity.
  - left. exact H.
Defined.

Lemma subscribe_mints_after_transfer_witness :
  exists (st' : State (gmap (Z * Z) Z)) actualValue,
    subscribe (fundEnv investor) 100 1000 subscriberState = Ok st'
    /\ subscribePriceForNumShares (fundEnv investor) fundStorage
         (ledger subscriberState) 100 = Ok actualValue
    /\ actualValue <= 1000
    /\ tokenTransfers (trace st') =
         [CallTransferFrom weth investor vaultAddress actualValue fundStorage]
    /\ balanceOfHolder (storage st') investor = balanceOfHolder fundStorage investor + 100
    /\ totalSupply (storage st') = totalSupply fundStorage + 100.
Proof.
  destruct (subscribe (fundEnv investor) 100 1000 subscriberState) as [st'| |] eqn:H;
    [|vm_compute in H; discriminate H..].
  destruct (subscribe_mints_after_transfer (fundEnv investor) 100 1000 subscriberState
              st' H) as (actualValue & Hprice & Hle & Htrace & Hbalance & Hsupply).
  exists st', actualValue. auto 10.
Defined.

Lemma redeem_burns_held_shares_witness :
  exists st',
    redeem (fundEnv investor) 100 0 fundState = Ok st'
    /\ 100 <= balanceOfHolder fundStorage investor
    /\ balanceOfHolder (storage st') investor = balanceOfHolder fundStorage investor - 100
    /\ totalSupply (storage st') = totalSupply fundStorage - 100.
Proof.
  destruct (redeem (fundEnv investor) 100 0 fundState) as [st'| |] eqn:H;
    [|vm_compute in H; discriminate H..].
  destruct (redeem_burns_held_shares (fundEnv investor) 100 0 fundState st'
              (or_introl H)) as (Hheld & _ & Hbalance & Hsupply & _).
  exists st'. auto.
Defined.

Lemma redeemUsingSlice_needs_supply_above_unclaimed_witness :
  redeemUsingSlice (fundEnv investor) 100 rewardedState = Revert.
Proof.
  apply (redeemUsingSlice_needs_supply_above_unclaimed (fundEnv investor) 100
           rewardedState).
  vm_compute. discriminate.
Defined.


Lemma redeemUsingSlice_single_asset_payout_witness :
  exists st',
    redeemUsingSlice (fundEnv investor) 100 fundState = Ok st'
    /\ trace st' =
         [CallTransfer weth investor (1100 * 100 / (1000 - 0)) (storage st');
          CallLogger (logRedeemed investor 100 100)].
Proof.
  destruct (redeemUsingSlice (fundEnv investor) 100 fundState) as [st'| |] eqn:H;
    [|vm_compute in H; discriminate H..].
  exists st'. split; [reflexivity|].
  apply (redeemUsingSlice_single_asset_payout (fundEnv investor) 100 weth wethFeed
           fundState st').
  - reflexivity.
  - vm_compute. discriminate.
  - exact H.
Defined.

Lemma fee_above_divisor_blocks_subscriptions_witness :
  setSubscriptionFee 100001 fundStorage = Ok (set_subscriptionFee fundStorage 100001)
  /\ forall st',
       subscribe (fundEnv investor) 100 1000
         (mkState (set_subscriptionFee fundStorage 100001) (ledger subscriberState) [])
         <> Ok st'.
Proof.
  destruct (fee_above_divisor_blocks_subscriptions 100001 fundStorage) as [Hset Hblocked].
  - vm_compute. reflexivity.
  - split; [exact Hset|]. intros st'. apply Hblocked.
Defined.

Lemma subscription_price_at_most_price_witness :
  79 = 80 * (SUBSCRIBE_FEE_DIVISOR - subscriptionFee fundStorage) / SUBSCRIBE_FEE_DIVISOR
  /\ 79 <= 80
  /\ (subscriptionFee fundStorage = 0 -> 79 = 80).
Proof.
  apply (subscription_price_at_most_price (fundEnv investor) fundStorage fundLedger
           100 80 79).
  - vm_compute. reflexivity.
  - vm_compute. reflexivity.
  - vm_compute. discriminate.
  - vm_compute. discriminate.
Defined.

Lemma calcGav_sums_asset_values_witness :
  Forall (fun entry => getQuoteAsset entry.2 = referenceAsset fundStorage)
    (universe (fundEnv investor))
  /\ 1100
     = foldr (fun entry acc => assetValue (fundEnv investor) fundLedger entry + acc) 0
         (universe (fundEnv investor)).
Proof.
  apply (calcGav_sums_asset_values (fundEnv investor) fundStorage fundLedger 1100).
  vm_compute. reflexivity.
Defined.

Lemma calcGav_reference_asset_only_witness :
  calcGav (fundEnv investor) fundStorage fundLedger
    = Ok (balanceOf (assets (fundEnv investor)) fundLedger (referenceAsset fundStorage)
            (this (fundEnv investor))).
Proof.
  apply (calcGav_reference_asset_only (fundEnv investor) fundStorage fundLedger wethFeed).
  - reflexivity.
  - reflexivity.
  - vm_compute. discriminate.
  - vm_compute. discriminate.
Defined.

Lemma calcGav_aborts_on_wrapped_decimals_witness :
  calcGav wideEnv fundStorage fundLedger <> Ok 1100.
Proof.
  apply (calcGav_aborts_on_wrapped_decimals wideEnv fundStorage fundLedger weth wethFeed).
  - apply list_elem_of_here.
  - vm_compute. discriminate.
Defined.

Lemma convertUnclaimedRewards_effects_witness :
  exists st',
    convertUnclaimedRewards (fundEnv manager) fundState = Ok st'
    /\ ledger st' = fundLedger
    /\ tokenTransfers (trace st') = []
    /\ balanceOfHolder (storage st') investor = balanceOfHolder fundStorage investor
    /\ unclaimedRewards (atLastPayout (storage st')) <= gav (atLastPayout (storage st'))
    /\ sharePrice (atLastPayout (storage st'))
         = nav (atLastPayout (storage st')) * baseUnitsPerShare fundStorage
             / totalSupply fundStorage.
Proof.
  destruct (convertUnclaimedRewards (fundEnv manager) fundState) as [st'| |] eqn:H;
    [|vm_compute in H; discriminate H..].
  destruct (convertUnclaimedRewards_effects (fundEnv manager) fundState st' H)
    as (Hledger & Htransfers & _ & Hothers & _ & Hle & _ & _ & _ & Hprice & _).
  exists st'. split; [reflexivity|]. split; [exact Hledger|].
  split; [exact Htransfers|]. split.
  - apply Hothers. vm_compute. discriminate.
  - split; [exact Hle|]. apply Hprice. vm_compute. reflexivity.
Defined.

End MoreScenarioFacts.

Section InterpreterScenarioFacts.

Import ValueInterpreter.

Lemma primitive_value_formula_witness :
  __calcAssetValue world 1 primitiveFeed derivativeFeed dai (10 ^ 18) weth false
    = Ok (10 ^ 16, true)
  <-> 10 ^ 16 * 10 ^ 18 <= MAX_UINT256
      /\ 10 ^ 16 * 10 ^ 18 * 10 ^ decimals world weth <= MAX_UINT256
      /\ 10 ^ 16
         = 10 ^ 16 * 10 ^ 18 * 10 ^ decimals world weth / 10 ^ (18 + decimals world dai)
      /\ true = true.
Proof.
  apply (primitive_value_formula world 0 primitiveFeed derivativeFeed dai (10 ^ 18) weth
           false (10 ^ 16) true (10 ^ 16) true).
  - unfold primitiveFeed. lia.
  - unfold dai. lia.
  - unfold weth. lia.
  - lia.
  - reflexivity.
  - reflexivity.
  - reflexivity.
  - vm_compute. split; discriminate.
  - vm_compute. split; discriminate.
Defined.



Lemma derivative_with_zero_underlying_amount_is_invalid_witness :
  __calcAssetValue world 2 primitiveFeed derivativeFeed lp 1 weth false = Ok (0, false)
  /\ false = false.
Proof.
  assert (Hrun : __calcAssetValue world 2 primitiveFeed derivativeFeed lp 1 weth false
                   = Ok (0, false)) by (vm_compute; reflexivity).
  split; [exact Hrun|].
  apply (derivative_with_zero_underlying_amount_is_invalid world 1 primitiveFeed
           derivativeFeed lp 1 weth false [weth; dai] [5 * 10 ^ 17; 2 * 10 ^ 18]
           0 weth (5 * 10 ^ 17) 0 false).
  - unfold primitiveFeed. lia.
  - unfold lp. lia.
  - unfold weth. lia.
  - lia.
  - reflexivity.
  - reflexivity.
  - unfold derivativeFeed. lia.
  - reflexivity.
  - reflexivity.
  - reflexivity.
  - reflexivity.
  - vm_compute. reflexivity.
  - exact Hrun.
Defined.

End InterpreterScenarioFacts.

Section ManagingScenarioFacts.

Import Vault VaultManaging AmguConsumer.

Lemma managing_is_for_the_owner_witness :
  makeOrder (fundEnv investor) knownUniverse permissive oneOrder fundStorage oasis
    10 weth 40 mln (tt, []) = Revert
  /\ takeOrder (fundEnv investor) knownUniverse permissive oneOrder fundStorage oasis
       7 100 (tt, []) = Revert
  /\ cancelOrder (fundEnv investor) oneOrder fundStorage oasis 7 (tt, []) = Revert.
Proof.
  apply (managing_is_for_the_owner (fundEnv investor) knownUniverse permissive oneOrder
           fundStorage oasis 10 weth 40 mln 7 100 (tt, [])).
  vm_compute. discriminate.
Defined.

Lemma takeOrder_approves_pro_rata_witness :
  takeOrder (fundEnv manager) knownUniverse permissive oneOrder fundStorage oasis 7 100
    (tt, [])
    = Ok (true, (tt, [CallApprove weth oasis 25; LogSpendingApproved weth oasis 25;
                      CallTake oasis 7 100]))
  /\ 100 <= 200
  /\ (0 <= 100 -> 0 <= 50 -> 100 * 50 / 200 <= 50).
Proof.
  assert (Hrun : takeOrder (fundEnv manager) knownUniverse permissive oneOrder
                   fundStorage oasis 7 100 (tt, [])
                 = Ok (true, (tt, [CallApprove weth oasis 25;
                                   LogSpendingApproved weth oasis 25;
                                   CallTake oasis 7 100])))
    by (vm_compute; reflexivity).
  split; [exact Hrun|].
  destruct (takeOrder_approves_pro_rata (fundEnv manager) knownUniverse permissive
              oneOrder fundStorage oasis 7 100 (tt, []) _ true 200 mln 50 weth
              eq_refl Hrun) as (_ & Hle & _ & _ & _ & _ & Hbound).
  split; [exact Hle|exact Hbound].
Defined.

Lemma makeOrder_approves_then_makes_witness :
  exists st',
    makeOrder (fundEnv manager) knownUniverse permissive oneOrder fundStorage oasis
      10 weth 40 mln (tt, []) = Ok (8, st')
    /\ st'.2 = [CallApprove weth oasis 10; LogSpendingApproved weth oasis 10;
                CallMake oasis 10 weth 40 mln].
Proof.
  eexists. split; [vm_compute; reflexivity|].
  apply (makeOrder_approves_then_makes (fundEnv manager) knownUniverse permissive
           oneOrder fundStorage oasis 10 weth 40 mln (tt, []) _ 8).
  vm_compute. reflexivity.
Defined.

Lemma amguPayable_returns_the_change_witness :
  exists events,
    amguPayable amguCollaborators investor 1000 (Ok tt) 500 100 = Ok (tt, events)
    /\ etherOut events = 1000.
Proof.
  destruct (amguPayable amguCollaborators investor 1000 (Ok tt) 500 100)
    as [[[] events]| |] eqn:H; [|vm_compute in H; discriminate H..].
  exists events. split; [reflexivity|].
  apply (amguPayable_returns_the_change amguCollaborators investor 1000 (Ok tt) 500 100
           tt events H).
Defined.

Lemma amguPayableWithIncentive_keeps_the_incentive_witness :
  exists events,
    amguPayableWithIncentive amguCollaborators investor 1000 (Ok tt) 500 100
      = Ok (tt, events)
    /\ etherOut events = 1000 - 30.
Proof.
  destruct (amguPayableWithIncentive amguCollaborators investor 1000 (Ok tt) 500 100)
    as [[[] events]| |] eqn:H; [|vm_compute in H; discriminate H..].
  exists events. split; [reflexivity|].
  apply (amguPayableWithIncentive_keeps_the_incentive amguCollaborators investor 1000
           (Ok tt) 500 100 tt events H).
Defined.

Lemma chargeAmgu_ignores_validity_witness :
  __chargeAmgu amguCollaborators investor 1000 400
    = Ok (80, [PaidAmguInEther 80; AmguPaid investor 80 400]).
Proof.
  apply (chargeAmgu_ignores_validity amguCollaborators investor 1000 400 80 false).
  - vm_compute. reflexivity.
  - vm_compute. discriminate.
  - vm_compute. reflexivity.
  - vm_compute. discriminate.
  - reflexivity.
Defined.

End ManagingScenarioFacts.
